(** * The BFS heuristic of the arm planner (bfs_heuristic.cpp)

    A shallow embedding of [sbpl::manip::BfsHeuristic] and of the
    collaborators it calls, followed by the properties of its query
    and goal-setting entry points. *)

From Stdlib Require Import ZArith Lia Bool List.
From Stdlib Require Import Floats.
From Stdlib Require DecimalString.
From stdpp Require Import base list list_numbers strings gmap sorting.

Local Open Scope Z_scope.

(** ** Machine integers and doubles *)

(** The C++ [int] is 32 bits wide.  Values are kept in [Z]; the one
    arithmetic operation of the file, the product in
    [getBfsCostToGoal], is reduced to the two's complement range.  The
    language leaves a signed overflow undefined; the wrap-around is
    what the compiled product yields. *)
Definition INT_MAX : Z := 2147483647.
Definition INT_MIN : Z := -2147483648.

Definition is_int (v : Z) : Prop := INT_MIN <= v <= INT_MAX.

Definition int_wrap (v : Z) : Z := (v + 2 ^ 31) mod 2 ^ 32 - 2 ^ 31.

Definition int_mul (a b : Z) : Z := int_wrap (a * b).

(** [(double)i] for an [int] [i]: every 32-bit integer is a binary64
    value, so the conversion is exact. *)
Definition double_of_int (i : Z) : float :=
  if i <? 0
  then PrimFloat.opp (PrimFloat.of_uint63 (Uint63.of_Z (- i)))
  else PrimFloat.of_uint63 (Uint63.of_Z i).

(** A grid cell, [(x, y, z)]. *)
Definition cell : Type := Z * Z * Z.

(** ** The wavefront engine, [BFS_3D] *)

Module BFS_3D.

(** Modelled from the spec: the header [bfs3d/BFS_3D.h] and its
    implementation are not among the sources.  The spec names two
    sentinels, [WALL] and [UNDISCOVERED], without their values, and
    leaves the neighbour connectivity open; they are the parameters of
    the engine.  The two sentinels stand for different states of a
    cell, so they differ. *)
Class Library : Type := {
  WALL : Z;
  UNDISCOVERED : Z;
  connectivity : list cell;
  sentinels_distinct : WALL <> UNDISCOVERED
}.

(** Modelled from the spec: the engine holds the dimensions and one
    dense integer-per-cell distance array, in which the sentinels mark
    wall and not-yet-reached cells. *)
Record t : Type := Build {
  dim_x : Z;
  dim_y : Z;
  dim_z : Z;
  distance_grid : list Z
}.

(** The size of an engine, and the well-formedness of its array: one
    entry per cell. *)
Definition dims (b : t) : Z * Z * Z := (dim_x b, dim_y b, dim_z b).

Definition sized (b : t) : Prop :=
  length (distance_grid b) = Z.to_nat (dim_x b * dim_y b * dim_z b).

Section Engine.
Context `{Library}.

(** Modelled from the spec: a new engine of the given size; no cell is
    a wall until [setWall] marks it. *)
Definition new (xc yc zc : Z) : t :=
  Build xc yc zc (replicate (Z.to_nat (xc * yc * zc)) UNDISCOVERED).

(** Modelled from the spec: [inBounds], the pure bounds predicate. *)
Definition inBounds (b : t) (x y z : Z) : bool :=
  (0 <=? x) && (x <? dim_x b) &&
  (0 <=? y) && (y <? dim_y b) &&
  (0 <=? z) && (z <? dim_z b).

(** Modelled from the spec: the position of a cell in the dense array
    (x runs fastest). *)
Definition getNode (b : t) (x y z : Z) : nat :=
  Z.to_nat (x + dim_x b * (y + dim_y b * z)).

(** Modelled from the spec: [getDistance], a plain array read.  The
    spec leaves it undefined out of bounds (callers check [inBounds]
    first); no statement below reads it there. *)
Definition getDistance (b : t) (x y z : Z) : Z :=
  default WALL (distance_grid b !! getNode b x y z).

(** Modelled from the spec: a plain array write. *)
Definition setDistance (b : t) (x y z d : Z) : t :=
  Build (dim_x b) (dim_y b) (dim_z b)
        (<[getNode b x y z := d]> (distance_grid b)).

(** Modelled from the spec: [setWall] stores the [WALL] sentinel. *)
Definition setWall (b : t) (x y z : Z) : t := setDistance b x y z WALL.

(** Modelled from the spec: a cell is a wall when it carries [WALL]. *)
Definition isWall (b : t) (x y z : Z) : bool := getDistance b x y z =? WALL.

(** Modelled from the spec: a cell is undiscovered when it carries
    [UNDISCOVERED]. *)
Definition isUndiscovered (b : t) (x y z : Z) : bool :=
  getDistance b x y z =? UNDISCOVERED.

(** Modelled from the spec: at the start of a run every cell that is
    not a wall goes back to [UNDISCOVERED]. *)
Definition reset (b : t) : t :=
  Build (dim_x b) (dim_y b) (dim_z b)
        (map (fun d => if d =? WALL then WALL else UNDISCOVERED)
             (distance_grid b)).

(** Modelled from the spec: one neighbour of the popped cell [(x,y,z)]
    at distance [d]: when it is in bounds, not a wall and still
    undiscovered it gets [d + 1] and joins the back of the frontier. *)
Definition visit (x y z d : Z) (st : t * list cell) (off : cell) : t * list cell :=
  let '(b, q) := st in
  let '(dx, dy, dz) := off in
  let '(nx, ny, nz) := (x + dx, y + dy, z + dz) in
  if inBounds b nx ny nz && negb (isWall b nx ny nz) && isUndiscovered b nx ny nz
  then (setDistance b nx ny nz (d + 1), q ++ [(nx, ny, nz)])
  else (b, q).

(** Modelled from the spec: the sweep pops the FIFO frontier until it
    is empty.  The recursion is on a bound on the number of pops: a
    cell joins the frontier only while it is undiscovered, and
    [run_fuel_enough] below shows that the bound [run] gives is not
    reached before the frontier is empty. *)
Fixpoint search (fuel : nat) (b : t) (q : list cell) : t :=
  match fuel, q with
  | O, _ => b
  | _, [] => b
  | S fuel', (x, y, z) :: q' =>
      let d := getDistance b x y z in
      let '(b', q'') := fold_left (visit x y z d) connectivity (b, q') in
      search fuel' b' q''
  end.

(** Modelled from the spec: [run] resets the field, seeds the frontier
    with the source cell at distance 0 and sweeps. *)
Definition run (b : t) (x y z : Z) : t :=
  let b0 := setDistance (reset b) x y z 0 in
  search (S (length (distance_grid b))) b0 [(x, y, z)].

End Engine.
End BFS_3D.

(** ** The collaborators of the heuristic *)

Module OccupancyGrid.

(** Modelled from the spec: the clearance grid is an external
    collaborator (smpl/occupancy_grid.h is not among the sources); the
    heuristic uses its size, its per-cell distance to the nearest
    obstacle, its world-to-grid transform and its resolution. *)
Record t : Type := Build {
  getGridSize : Z * Z * Z;
  getDistance : Z -> Z -> Z -> float;
  worldToGrid : float -> float -> float -> cell;
  getResolution : float
}.

End OccupancyGrid.

(** Modelled from the spec: the hash entry of a search state, whose
    declaration is not among the sources; the heuristic reads its
    [xyz], three [int]s. *)
Record EnvROBARM3DHashEntry_t : Type := { xyz : cell }.

Module EnvironmentROBARM3D.

(** Modelled from the spec: the state-lookup and goal-test
    collaborator.  [getHashEntry] returns a null pointer, here [None],
    for an identifier it cannot resolve. *)
Record t : Type := Build {
  getHashEntry : Z -> option EnvROBARM3DHashEntry_t;
  isGoal : Z -> bool
}.

End EnvironmentROBARM3D.

(** Modelled from the spec: the declaration of [PlanningParams] is not
    among the sources; these are the two members the heuristic reads,
    an [int] and a [double] by their uses. *)
Record PlanningParams : Type := {
  cost_per_cell_ : Z;
  planning_link_sphere_radius_ : float
}.

(** ** The heuristic, [BfsHeuristic] *)

Module BfsHeuristic.

Record t : Type := Build {
  m_manip_env : EnvironmentROBARM3D.t;
  m_grid : OccupancyGrid.t;
  m_params : PlanningParams;
  m_bfs : BFS_3D.t
}.

Definition set_bfs (h : t) (bfs : BFS_3D.t) : t :=
  Build (m_manip_env h) (m_grid h) (m_params h) bfs.

Section Methods.
Context `{BFS_3D.Library}.

(** [bool BfsHeuristic::setGoal(int x, int y, int z)]; a method that
    is not [const] returns the object next to its result. *)
Definition setGoal (h : t) (x y z : Z) : bool * t :=
  if negb (BFS_3D.inBounds (m_bfs h) x y z) then (false, h)
  else (true, set_bfs h (BFS_3D.run (m_bfs h) x y z)).

(** [double BfsHeuristic::getMetricGoalDistance(double, double, double)] *)
Definition getMetricGoalDistance (h : t) (x y z : float) : float * t :=
  let '(gx, gy, gz) := OccupancyGrid.worldToGrid (m_grid h) x y z in
  if negb (BFS_3D.inBounds (m_bfs h) gx gy gz)
  then (PrimFloat.mul (double_of_int BFS_3D.WALL)
                      (OccupancyGrid.getResolution (m_grid h)), h)
  else (PrimFloat.mul (double_of_int (BFS_3D.getDistance (m_bfs h) gx gy gz))
                      (OccupancyGrid.getResolution (m_grid h)), h).

(** [int BfsHeuristic::getBfsCostToGoal(const BFS_3D&, int, int, int) const] *)
Definition getBfsCostToGoal (h : t) (bfs : BFS_3D.t) (x y z : Z) : Z :=
  if negb (BFS_3D.inBounds bfs x y z) then INT_MAX
  else if BFS_3D.getDistance bfs x y z =? BFS_3D.WALL then INT_MAX
  else int_mul (cost_per_cell_ (m_params h)) (BFS_3D.getDistance bfs x y z).

(** [int BfsHeuristic::GetGoalHeuristic(int state_id)] *)
Definition GetGoalHeuristic (h : t) (state_id : Z) : Z * t :=
  match EnvironmentROBARM3D.getHashEntry (m_manip_env h) state_id with
  | Some state =>
      let '(x, y, z) := xyz state in
      (getBfsCostToGoal h (m_bfs h) x y z, h)
  | None => (0, h)
  end.

(** [int BfsHeuristic::GetStartHeuristic(int state_id)] *)
Definition GetStartHeuristic (h : t) (state_id : Z) : Z * t := (0, h).

(** [int BfsHeuristic::GetFromToHeuristic(int from_id, int to_id)] *)
Definition GetFromToHeuristic (h : t) (from_id to_id : Z) : Z * t :=
  if EnvironmentROBARM3D.isGoal (m_manip_env h) to_id
  then GetGoalHeuristic h from_id
  else (0, h).

(** The test of the innermost loop of [syncGridAndBfs]:
    [m_grid->getDistance(x, y, z) <= m_params->planning_link_sphere_radius_],
    a comparison of doubles. *)
Definition too_close (h : t) (x y z : Z) : bool :=
  PrimFloat.leb (OccupancyGrid.getDistance (m_grid h) x y z)
                (planning_link_sphere_radius_ (m_params h)).

(** The body of the innermost loop, at cell [(x, y, z)]: the loop
    state is the engine and [wall_count]. *)
Definition sync_cell (h : t) (z y : Z) (st : BFS_3D.t * Z) (x : Z) : BFS_3D.t * Z :=
  if too_close h x y z
  then (BFS_3D.setWall (fst st) x y z, snd st + 1)
  else st.

(** [for (int x = 0; x < xc; ++x)] *)
Definition sync_row (h : t) (xc z : Z) (st : BFS_3D.t * Z) (y : Z) : BFS_3D.t * Z :=
  fold_left (sync_cell h z y) (seqZ 0 xc) st.

(** [for (int y = 0; y < yc; ++y)] *)
Definition sync_plane (h : t) (xc yc : Z) (st : BFS_3D.t * Z) (z : Z) : BFS_3D.t * Z :=
  fold_left (sync_row h xc z) (seqZ 0 yc) st.

(** The three nested loops, from a new engine and a count of zero. *)
Definition sync_loops (h : t) : BFS_3D.t * Z :=
  let '(xc, yc, zc) := OccupancyGrid.getGridSize (m_grid h) in
  fold_left (sync_plane h xc yc) (seqZ 0 zc) (BFS_3D.new xc yc zc, 0).

(** [void BfsHeuristic::syncGridAndBfs()]: the engine is replaced by
    the one the loops built; [wall_count] is only logged. *)
Definition syncGridAndBfs (h : t) : t := set_bfs h (fst (sync_loops h)).

(** The constructor: the members are initialised and the engine is
    built from the grid.  [m_bfs] is a null pointer until
    [syncGridAndBfs] resets it; the empty engine stands for it. *)
Definition make (env : EnvironmentROBARM3D.t) (grid : OccupancyGrid.t)
    (params : PlanningParams) : t :=
  syncGridAndBfs (Build env grid params (BFS_3D.new 0 0 0)).

End Methods.
End BfsHeuristic.

(** ** Vocabulary of the statements *)

(** [marked P b b']: the engine [b'] is [b] with the [WALL] sentinel
    written at the cells of [b] that satisfy [P], and nothing else
    changed. *)
Definition marked `{BFS_3D.Library} (P : Z -> Z -> Z -> bool) (b b' : BFS_3D.t) : Prop :=
  BFS_3D.dims b' = BFS_3D.dims b /\ BFS_3D.sized b' /\
  forall x y z, BFS_3D.inBounds b x y z = true ->
    BFS_3D.getDistance b' x y z =
      if P x y z then BFS_3D.WALL else BFS_3D.getDistance b x y z.

(** The number of cells that carry [UNDISCOVERED], and a frontier all
    of whose cells are in bounds and already have a distance. *)
Definition undiscovered_count `{BFS_3D.Library} (b : BFS_3D.t) : nat :=
  count_occ Z.eq_dec (BFS_3D.distance_grid b) BFS_3D.UNDISCOVERED.

Definition frontier_ok `{BFS_3D.Library} (b : BFS_3D.t) (q : list cell) : Prop :=
  Forall (fun c : cell => let '(x, y, z) := c in
            BFS_3D.inBounds b x y z = true /\ 0 <= BFS_3D.getDistance b x y z) q.

(** ** A small scene for the examples

    Three cells in a row along x, at a resolution of half a metre; the
    obstacle sits in the middle cell. *)

(** One admissible library: the sentinels are the largest [int] and
    minus one, the connectivity is the six face neighbours. *)
Definition example_library : BFS_3D.Library :=
  {| BFS_3D.WALL := 2147483647;
     BFS_3D.UNDISCOVERED := -1;
     BFS_3D.connectivity :=
       [(1, 0, 0); (-1, 0, 0); (0, 1, 0); (0, -1, 0); (0, 0, 1); (0, 0, -1)];
     BFS_3D.sentinels_distinct := ltac:(discriminate) |}.

(** The cell of a coordinate, for the three cells of the scene. *)
Definition example_coord (v : float) : Z :=
  if PrimFloat.ltb v 0%float then -1
  else if PrimFloat.ltb v 0.5%float then 0
  else if PrimFloat.ltb v 1%float then 1
  else if PrimFloat.ltb v 1.5%float then 2
  else 3.

Definition example_grid : OccupancyGrid.t :=
  OccupancyGrid.Build (3, 1, 1)
    (fun x y z => if x =? 1 then 0%float else 1%float)
    (fun x y z => (example_coord x, example_coord y, example_coord z))
    0.5%float.

(** The same grid without the obstacle. *)
Definition example_free_grid : OccupancyGrid.t :=
  OccupancyGrid.Build (3, 1, 1) (fun x y z => 1%float)
    (fun x y z => (example_coord x, example_coord y, example_coord z))
    0.5%float.

(** State 5 is at the first cell, state 7 at the last, state 0 is the
    goal state; no other identifier resolves. *)
Definition example_env : EnvironmentROBARM3D.t :=
  EnvironmentROBARM3D.Build
    (fun id => if id =? 5 then Some {| xyz := (0, 0, 0) |}
               else if id =? 7 then Some {| xyz := (2, 0, 0) |}
               else None)
    (fun id => id =? 0).

Definition example_params (cost : Z) (radius : float) : PlanningParams :=
  {| cost_per_cell_ := cost; planning_link_sphere_radius_ := radius |}.

(** The heuristic over the scene, as constructed and after the goal
    was set to the first cell. *)
Definition example_heuristic : BfsHeuristic.t :=
  @BfsHeuristic.make example_library example_env example_grid
    (example_params 100 0.25%float).

Definition example_heuristic_goal : BfsHeuristic.t :=
  snd (@BfsHeuristic.setGoal example_library example_heuristic 0 0 0).

(** The heuristic over the free grid with a given cost per cell, goal
    at the first cell. *)
Definition example_free_goal (cost : Z) : BfsHeuristic.t :=
  snd (@BfsHeuristic.setGoal example_library
         (@BfsHeuristic.make example_library example_env example_free_grid
            (example_params cost 0.25%float)) 0 0 0).

(** The heuristic over the scene for a robot of radius two metres:
    no cell has that much clearance. *)
Definition example_wide_heuristic : BfsHeuristic.t :=
  @BfsHeuristic.make example_library example_env example_grid
    (example_params 100 2%float).

(** A cube of 5 x 5 x 5 free cells, goal at its centre. *)
Definition example_cube_grid : OccupancyGrid.t :=
  OccupancyGrid.Build (5, 5, 5) (fun x y z => 1%float)
    (fun x y z => (example_coord x, example_coord y, example_coord z))
    0.5%float.

Definition example_cube_goal : BfsHeuristic.t :=
  snd (@BfsHeuristic.setGoal example_library
         (@BfsHeuristic.make example_library example_env example_cube_grid
            (example_params 100 0.25%float)) 2 2 2).

(** ** The visualisations of the heuristic *)

(** [geometry_msgs::Point] *)
Definition Point : Type := float * float * float.

(** [std::to_string(int)] and [ostream << int]: the decimal digits,
    with a minus sign for a negative number. *)
Definition to_string (i : Z) : string :=
  DecimalString.NilZero.string_of_int (Z.to_int i).

(** What [getValuesVisualization] hands to [viz::getTextMarker] for a
    cell, the constant scale, frame and namespace apart: the position,
    the text, the hue and the identifier. *)
Record TextMarker : Type := {
  marker_position : Point;
  marker_text : string;
  marker_hue : float;
  marker_id : Z
}.

(** The cells of a grid in the order in which the three nested loops
    of the heuristic visit them: z outermost, x innermost. *)
Definition scan_cells (dimX dimY dimZ : Z) : list cell :=
  flat_map (fun z => flat_map (fun y => map (fun x => (x, y, z)) (seqZ 0 dimX))
                              (seqZ 0 dimY))
           (seqZ 0 dimZ).

Module Visualization.
Section Markers.
Context `{BFS_3D.Library}.

(** [m_grid->gridToWorld], the centre of a cell in the world; the
    transform of the grid collaborator is a parameter. *)
Variable gridToWorld : Z -> Z -> Z -> Point.
Import BfsHeuristic.

(** The body of the innermost loop of [getWallsVisualization]. *)
Definition walls_cell (h : t) (z y : Z) (pnts : list Point) (x : Z) : list Point :=
  if BFS_3D.isWall (m_bfs h) x y z then pnts ++ [gridToWorld x y z] else pnts.

(** [BfsHeuristic::getWallsVisualization]: the vector [pnts] that the
    three loops fill and hand to [viz::getCubesMarker]; the marker
    itself is the business of that library. *)
Definition getWallsVisualization_pnts (h : t) : list Point :=
  let '(dimX, dimY, dimZ) := OccupancyGrid.getGridSize (m_grid h) in
  fold_left (fun pnts z =>
    fold_left (fun pnts y =>
      fold_left (walls_cell h z y) (seqZ 0 dimX) pnts)
      (seqZ 0 dimY) pnts)
    (seqZ 0 dimZ) [].

(** The body of the innermost loop of [getValuesVisualization]: cells
    without a valid distance are skipped; the identifier of a marker
    is the number of markers before it. *)
Definition values_cell (h : t) (z y : Z) (ma : list TextMarker) (x : Z)
    : list TextMarker :=
  if BFS_3D.isWall (m_bfs h) x y z || BFS_3D.isUndiscovered (m_bfs h) x y z then ma
  else
    let d := BFS_3D.getDistance (m_bfs h) x y z in
    let hue := PrimFloat.mul (PrimFloat.div (double_of_int d) 30%float) 300%float in
    ma ++ [{| marker_position := gridToWorld x y z;
              marker_text := to_string d;
              marker_hue := hue;
              marker_id := Z.of_nat (length ma) |}].

(** [BfsHeuristic::getValuesVisualization]: the markers, each by what
    is handed to [viz::getTextMarker]. *)
Definition getValuesVisualization (h : t) : list TextMarker :=
  let '(dimX, dimY, dimZ) := OccupancyGrid.getGridSize (m_grid h) in
  fold_left (fun ma z =>
    fold_left (fun ma y =>
      fold_left (values_cell h z y) (seqZ 0 dimX) ma)
      (seqZ 0 dimY) ma)
    (seqZ 0 dimZ) [].

End Markers.
End Visualization.

(** The tests of the two visualisations on a cell, and the marker of a
    cell that has a value. *)
Definition cell_is_wall `{BFS_3D.Library} (b : BFS_3D.t) (c : cell) : bool :=
  let '(x, y, z) := c in BFS_3D.isWall b x y z.

Definition cell_has_value `{BFS_3D.Library} (b : BFS_3D.t) (c : cell) : bool :=
  let '(x, y, z) := c in
  negb (BFS_3D.isWall b x y z || BFS_3D.isUndiscovered b x y z).

Definition value_marker `{BFS_3D.Library} (gridToWorld : Z -> Z -> Z -> Point)
    (b : BFS_3D.t) (i : nat) (c : cell) : TextMarker :=
  let '(x, y, z) := c in
  let d := BFS_3D.getDistance b x y z in
  {| marker_position := gridToWorld x y z;
     marker_text := to_string d;
     marker_hue := PrimFloat.mul (PrimFloat.div (double_of_int d) 30%float) 300%float;
     marker_id := Z.of_nat i |}.

(** The centres of the cells of the example scene. *)
Definition example_gridToWorld (x y z : Z) : Point :=
  (PrimFloat.add (PrimFloat.mul (double_of_int x) 0.5%float) 0.25%float,
   PrimFloat.add (PrimFloat.mul (double_of_int y) 0.5%float) 0.25%float,
   PrimFloat.add (PrimFloat.mul (double_of_int z) 0.5%float) 0.25%float).

(** * The planner manager (sbpl_planner_manager.cpp)

    [sbpl_interface::SBPLPlannerManager] with the values of the ROS
    parameter server it converts, the request it screens and the
    collaborators it calls. *)

(** The two renderings of a [double] by the C++ standard library,
    [std::to_string(double)] and [ostream << double]; they are its
    business and stay parameters. *)
Class DoubleFormat : Type := {
  to_string_double : float -> string;
  stream_double : float -> string
}.

Module XmlRpc.

(** [XmlRpc::XmlRpcValue::Type] *)
Inductive ValueType : Set :=
| TypeInvalid | TypeBoolean | TypeInt | TypeDouble | TypeString
| TypeDateTime | TypeBase64 | TypeArray | TypeStruct.

(** [XmlRpc::XmlRpcValue]: a tagged union; a struct is a [std::map]
    from member names to values, given by its in-order traversal.  The
    payloads of the date and binary values are never read. *)
#[warnings="-register-all"] Inductive Value : Type :=
| Invalid
| Boolean (b : bool)
| Int (i : Z)
| Double (d : float)
| String (s : string)
| DateTime
| Base64
| Array (a : list Value)
| Struct (m : list (string * Value)).

Definition getType (v : Value) : ValueType :=
  match v with
  | Invalid => TypeInvalid
  | Boolean _ => TypeBoolean
  | Int _ => TypeInt
  | Double _ => TypeDouble
  | String _ => TypeString
  | DateTime => TypeDateTime
  | Base64 => TypeBase64
  | Array _ => TypeArray
  | Struct _ => TypeStruct
  end.

(** [size()], for the two kinds of value the manager asks it of. *)
Definition size (v : Value) : Z :=
  match v with
  | Array a => Z.of_nat (length a)
  | Struct m => Z.of_nat (length m)
  | _ => 0
  end.

(** [hasMember(name)] *)
Definition hasMember (v : Value) (name : string) : bool :=
  match v with
  | Struct m => existsb (fun e => String.eqb (fst e) name) m
  | _ => false
  end.

(** [operator[](name)] on a struct that has the member. *)
Definition member (v : Value) (name : string) : Value :=
  match v with
  | Struct m =>
      match find (fun e => String.eqb (fst e) name) m with
      | Some e => snd e
      | None => Invalid
      end
  | _ => Invalid
  end.

End XmlRpc.

(** [static const char* xmlTypeToString(XmlRpc::XmlRpcValue::Type)];
    the [default] label of its [switch] answers no enumerator. *)
Definition xmlTypeToString (type : XmlRpc.ValueType) : string :=
  match type with
  | XmlRpc.TypeInvalid => "Invalid"
  | XmlRpc.TypeBoolean => "Boolean"
  | XmlRpc.TypeInt => "Int"
  | XmlRpc.TypeDouble => "Double"
  | XmlRpc.TypeString => "String"
  | XmlRpc.TypeDateTime => "DateTime"
  | XmlRpc.TypeBase64 => "Base64"
  | XmlRpc.TypeArray => "Array"
  | XmlRpc.TypeStruct => "Struct"
  end.

Section XmlToString.
Context `{DoubleFormat}.

(** The inner [switch] of the array and struct cases of [xmlToString]:
    [ss << (T)member] for the four scalar types, [None] for the
    [default] label, which returns false. *)
Definition stream_member (v : XmlRpc.Value) : option string :=
  match v with
  | XmlRpc.Boolean b => Some (if b then "1" else "0")
  | XmlRpc.Int i => Some (to_string i)
  | XmlRpc.Double d => Some (stream_double d)
  | XmlRpc.String s => Some s
  | _ => None
  end.

(** One round of the loop over an array: member [i] is streamed and,
    unless it is the last, a blank follows.  The state is the text of
    the stream, or [None] once the function has returned false. *)
Definition array_step (size : Z) (ss : option string) (iv : Z * XmlRpc.Value)
    : option string :=
  match ss with
  | None => None
  | Some text =>
      match stream_member (snd iv) with
      | None => None
      | Some s =>
          Some (if negb (fst iv =? size - 1) then text +:+ s +:+ " " else text +:+ s)
      end
  end.

(** One round of the loop over a struct: the name, a blank, the
    member and, unless it is the last, a blank. *)
Definition struct_step (size : Z) (ss : option string)
    (ie : Z * (string * XmlRpc.Value)) : option string :=
  match ss with
  | None => None
  | Some text =>
      match stream_member (snd (snd ie)) with
      | None => None
      | Some s =>
          let text' := text +:+ fst (snd ie) +:+ " " +:+ s in
          Some (if negb (fst ie =? size - 1) then text' +:+ " " else text')
      end
  end.

(** [bool SBPLPlannerManager::xmlToString(XmlRpcValue& value, std::string& out) const]:
    the result and the new content of [out]. *)
Definition xmlToString (value : XmlRpc.Value) (out : string) : bool * string :=
  match value with
  | XmlRpc.String s => (true, s)
  | XmlRpc.Boolean b => (true, if b then "true" else "false")
  | XmlRpc.Int i => (true, to_string i)
  | XmlRpc.Double d => (true, to_string_double d)
  | XmlRpc.Array a =>
      match fold_left (array_step (XmlRpc.size value))
                      (zip (seqZ 0 (XmlRpc.size value)) a) (Some "") with
      | Some text => (true, text)
      | None => (false, out)
      end
  | XmlRpc.Struct m =>
      match fold_left (struct_step (XmlRpc.size value))
                      (zip (seqZ 0 (XmlRpc.size value)) m) (Some "") with
      | Some text => (true, text)
      | None => (false, out)
      end
  | _ => (false, out)
  end.

End XmlToString.


(** ** The request and the configurations *)

(** [geometry_msgs::Vector3] *)
Record Vector3 : Type := { v_x : float; v_y : float; v_z : float }.

(** [moveit_msgs::WorkspaceParameters], with the frame of its header. *)
Record WorkspaceParameters : Type := {
  frame_id : string;
  min_corner : Vector3;
  max_corner : Vector3
}.

(** The four kinds of constraint of [moveit_msgs::Constraints]; the
    manager reads the name of the link of a position constraint and
    otherwise only counts them. *)
Record JointConstraint : Type := { joint_name : string }.
Record PositionConstraint : Type := { link_name : string }.
Record OrientationConstraint : Type := { orientation_link_name : string }.
Record VisibilityConstraint : Type := { target_radius : float }.

Record Constraints : Type := {
  joint_constraints : list JointConstraint;
  position_constraints : list PositionConstraint;
  orientation_constraints : list OrientationConstraint;
  visibility_constraints : list VisibilityConstraint
}.

(** [planning_interface::MotionPlanRequest], the fields the manager
    decides on; [trajectory_constraints] stands for
    [trajectory_constraints.constraints]. *)
Record MotionPlanRequest : Type := {
  workspace_parameters : WorkspaceParameters;
  goal_constraints : list Constraints;
  path_constraints : Constraints;
  trajectory_constraints : list Constraints;
  planner_id : string;
  group_name : string;
  allowed_planning_time : float
}.

(** [planning_interface::PlannerConfigurationSettings] *)
Record PlannerConfigurationSettings : Type := {
  pcs_group : string;
  pcs_name : string;
  pcs_config : gmap string string
}.

(** [ros::NodeHandle], the two calls the manager makes. *)
Record NodeHandle : Type := {
  hasParam : string -> bool;
  getParam : string -> option XmlRpc.Value
}.

(** [moveit::core::RobotModel], the two calls the manager makes. *)
Record RobotModel : Type := {
  getName : string;
  getJointModelGroupNames : list string
}.

(** The collaborators of the manager: the parameter server, which
    gives a node handle for a namespace, and the robot model of the
    planner with its default constructor and its [init]. *)
Class Collaborators : Type := {
  node_handle : string -> NodeHandle;
  MoveItRobotModel : Type;
  MoveItRobotModel_new : MoveItRobotModel;
  MoveItRobotModel_init :
    MoveItRobotModel -> option RobotModel -> string -> bool * MoveItRobotModel
}.

(** [std::vector::empty()] *)
Definition vector_empty {A : Type} (v : list A) : bool :=
  match v with [] => true | _ :: _ => false end.

(** [name.find(part) != std::string::npos] *)
Definition string_contains (name part : string) : bool :=
  match String.index 0 part name with Some _ => true | None => false end.

(** The in-order traversal of a [std::map] with string keys: its
    entries by increasing key. *)
Fixpoint insert_by_key {V : Type} (e : string * V) (l : list (string * V))
    : list (string * V) :=
  match l with
  | [] => [e]
  | e' :: l' => if String.leb (fst e) (fst e') then e :: l else e' :: insert_by_key e l'
  end.

Definition in_order {V : Type} (m : gmap string V) : list (string * V) :=
  foldr insert_by_key [] (map_to_list m).

Module SBPLPlannerManager.

(** [const std::string DefaultPlanningAlgorithm] *)
Definition DefaultPlanningAlgorithm : string := "arastar".

(** The process-wide visualizer of [sbpl::viz]: the address of the
    registered visualizer, or null. *)
Definition Visualizer : Type := option Z.

(** The constructor registers the visualizer of the manager at address
    [this]. *)
Definition construct_manager (this : Z) (global : Visualizer) : Visualizer := Some this.

(** The destructor unsets the global visualizer when it is the one of
    this manager. *)
Definition destruct_manager (this : Z) (global : Visualizer) : Visualizer :=
  if bool_decide (global = Some this) then None else global.

Section Manager.
Context `{DoubleFormat} `{Collaborators}.

(** The members of the manager, with [config_settings_] of the base
    class [planning_interface::PlannerManager]. *)
Record t : Type := Build {
  m_robot_model : option RobotModel;
  m_ns : string;
  config_settings_ : gmap string PlannerConfigurationSettings;
  m_sbpl_models : gmap string MoveItRobotModel
}.

(** [void getPlanningAlgorithms(std::vector<std::string>& algs) const] *)
Definition getPlanningAlgorithms (algs : list string) : list string :=
  algs ++ ["ARA*"] ++ ["MHA*"] ++ ["LARA*"].

(** The body of the loop of [canServiceRequest] over the goal
    constraints: true when the round returns false. *)
Definition goal_unsupported (constraints : Constraints) : bool :=
  if negb (vector_empty (joint_constraints constraints)) then true
  else if negb (vector_empty (visibility_constraints constraints)) then true
  else if negb (length (position_constraints constraints) =? 1)%nat ||
          negb (length (orientation_constraints constraints) =? 1)%nat then true
  else false.

(** [bool canServiceRequest(const MotionPlanRequest& req) const] *)
Definition canServiceRequest (mgr : t) (req : MotionPlanRequest) : bool :=
  if PrimFloat.ltb (allowed_planning_time req) 0%float then false
  else
    match config_settings_ mgr !! group_name req with
    | None => false
    | Some _ =>
        if negb (existsb (String.eqb (planner_id req)) (getPlanningAlgorithms [])) then false
        else if (1 <? length (goal_constraints req))%nat then false
        else if existsb goal_unsupported (goal_constraints req) then false
        else if negb (vector_empty (position_constraints (path_constraints req))) ||
                negb (vector_empty (orientation_constraints (path_constraints req))) ||
                negb (vector_empty (joint_constraints (path_constraints req))) ||
                negb (vector_empty (visibility_constraints (path_constraints req)))
             then false
        else if negb (vector_empty (trajectory_constraints req)) then false
        else if String.eqb (frame_id (workspace_parameters req)) "" then false
        else
          let min_corner := min_corner (workspace_parameters req) in
          let max_corner := max_corner (workspace_parameters req) in
          if PrimFloat.ltb (v_x max_corner) (v_x min_corner) ||
             PrimFloat.ltb (v_y max_corner) (v_y min_corner) ||
             PrimFloat.ltb (v_z max_corner) (v_z min_corner)
          then false
          else true
    end.

(** One round of the loop of [getPlanningContext] that merges the
    parameters: [all_params.insert(first, last)] keeps the value of a
    key it already holds. *)
Definition merge_step (req : MotionPlanRequest) (all_params : gmap string string)
    (entry : string * PlannerConfigurationSettings) : gmap string string :=
  if string_contains (fst entry) (group_name req) then
    match pcs_config (snd entry) !! "type" with
    | None => all_params ∪ pcs_config (snd entry)
    | Some type =>
        if String.eqb type (planner_id req)
        then all_params ∪ pcs_config (snd entry)
        else all_params
    end
  else all_params.

(** The parameters [getPlanningContext] hands to the planning context:
    the loop over the planner configurations, in the order of their
    names. *)
Definition getPlanningContext_all_params (mgr : t) (req : MotionPlanRequest)
    : gmap string string :=
  fold_left (merge_step req) (in_order (config_settings_ mgr)) ∅.

(** [MoveItRobotModel* getModelForGroup(const std::string& group_name)]:
    the model the returned pointer refers to, or [None] for null, and
    the manager afterwards. *)
Definition getModelForGroup (mgr : t) (group_name : string)
    : option MoveItRobotModel * t :=
  match m_sbpl_models mgr !! group_name with
  | None =>
      let inserted := <[group_name := MoveItRobotModel_new]> (m_sbpl_models mgr) in
      let '(ok, sbpl_model) :=
        MoveItRobotModel_init MoveItRobotModel_new (m_robot_model mgr) group_name in
      if negb ok
      then (None,
            Build (m_robot_model mgr) (m_ns mgr) (config_settings_ mgr)
                  (delete group_name (<[group_name := sbpl_model]> inserted)))
      else (Some sbpl_model,
            Build (m_robot_model mgr) (m_ns mgr) (config_settings_ mgr)
                  (<[group_name := sbpl_model]> inserted))
  | Some sbpl_model => (Some sbpl_model, mgr)
  end.

(** [planner_settings[name]] is created empty when absent and then
    written by [xmlToString]; a failed conversion is only logged. *)
Definition settings_step (planner_settings : gmap string string)
    (entry : string * XmlRpc.Value) : gmap string string :=
  <[fst entry := snd (xmlToString (snd entry)
                        (default "" (planner_settings !! fst entry)))]> planner_settings.

(** One round of the outer loop of [loadPlannerSettings]; [None] once
    the function has returned false. *)
Definition configs_step (planner_configs : option (gmap string (gmap string string)))
    (entry : string * XmlRpc.Value) : option (gmap string (gmap string string)) :=
  match planner_configs with
  | None => None
  | Some configs =>
      match snd entry with
      | XmlRpc.Struct members =>
          Some (<[fst entry := fold_left settings_step members ∅]> configs)
      | _ => None
      end
  end.

(** [bool loadPlannerSettings(PlannerSettingsMap& out)] *)
Definition loadPlannerSettings (mgr : t) (out : gmap string (gmap string string))
    : bool * gmap string (gmap string string) :=
  let nh := node_handle (m_ns mgr) in
  if negb (hasParam nh "planner_configs") then (true, out)
  else
    match getParam nh "planner_configs" with
    | None => (false, out)
    | Some (XmlRpc.Struct members) =>
        match fold_left configs_step members (Some ∅) with
        | Some planner_configs => (true, planner_configs)
        | None => (false, out)
        end
    | Some _ => (false, out)
    end.

(** [known_group_param_names] of [loadPlannerConfigurationMapping] *)
Definition known_group_param_names : list string :=
  [ "discretization"; "mprim_filename"; "use_xyz_snap_mprim"; "use_rpy_snap_mprim";
    "use_xyzrpy_snap_mprim"; "use_short_dist_mprims"; "xyz_snap_dist_thresh";
    "rpy_snap_dist_thresh"; "xyzrpy_snap_dist_thresh"; "short_dist_mprims_thresh";
    "shortcut_path"; "shortcut_type"; "interpolate_path" ].

(** One round of the loop over the planner configurations of a group;
    [None] once the function has returned false. *)
Definition planner_config_step (planner_settings_map : gmap string (gmap string string))
    (joint_group_name : string)
    (pcm : option (gmap string PlannerConfigurationSettings))
    (group_planner_config : XmlRpc.Value)
    : option (gmap string PlannerConfigurationSettings) :=
  match pcm with
  | None => None
  | Some pcm =>
      match group_planner_config with
      | XmlRpc.String planner_config_name =>
          match planner_settings_map !! planner_config_name with
          | None => Some pcm
          | Some settings =>
              let name := joint_group_name +:+ "[" +:+ planner_config_name +:+ "]" in
              Some (<[name := {| pcs_group := joint_group_name;
                                 pcs_name := name;
                                 pcs_config := settings |}]> pcm)
          end
      | _ => None
      end
  end.

(** One round of the loop over the known parameters of a group: the
    state is [found_all] and [known_settings]; the [break] leaves the
    remaining rounds without effect. *)
Definition known_param_step (joint_group_cfg : XmlRpc.Value)
    (st : bool * gmap string string) (param_name : string) : bool * gmap string string :=
  if negb (fst st) then st
  else if negb (XmlRpc.hasMember joint_group_cfg param_name) then (false, snd st)
  else (true,
        <[param_name := snd (xmlToString (XmlRpc.member joint_group_cfg param_name)
                               (default "" (snd st !! param_name)))]> (snd st)).

(** One round of the loop over the joint groups; [None] once the
    function has returned false. *)
Definition group_step (nh : NodeHandle)
    (planner_settings_map : gmap string (gmap string string))
    (pcm : option (gmap string PlannerConfigurationSettings))
    (joint_group_name : string) : option (gmap string PlannerConfigurationSettings) :=
  match pcm with
  | None => None
  | Some pcm =>
      if negb (hasParam nh joint_group_name) then Some pcm
      else
        match getParam nh joint_group_name with
        | None => None
        | Some joint_group_cfg =>
            match joint_group_cfg with
            | XmlRpc.Struct _ =>
                let with_planners :=
                  if XmlRpc.hasMember joint_group_cfg "planner_configs" then
                    match XmlRpc.member joint_group_cfg "planner_configs" with
                    | XmlRpc.Array group_planner_configs_cfg =>
                        fold_left (planner_config_step planner_settings_map joint_group_name)
                                  group_planner_configs_cfg (Some pcm)
                    | _ => None
                    end
                  else Some pcm in
                match with_planners with
                | None => None
                | Some pcm' =>
                    let '(found_all, known_settings) :=
                      fold_left (known_param_step joint_group_cfg)
                                known_group_param_names (true, ∅) in
                    if found_all
                    then Some (<[joint_group_name :=
                                   {| pcs_group := joint_group_name;
                                      pcs_name := joint_group_name;
                                      pcs_config := known_settings |}]> pcm')
                    else Some pcm'
                end
            | _ => None
            end
        end
  end.

(** [void setPlannerConfigurations(const PlannerConfigurationMap& pcs)]:
    the base class stores the map; the rest is logging. *)
Definition setPlannerConfigurations (mgr : t)
    (pcs : gmap string PlannerConfigurationSettings) : t :=
  Build (m_robot_model mgr) (m_ns mgr) pcs (m_sbpl_models mgr).

(** [bool loadPlannerConfigurationMapping(const moveit::core::RobotModel& model)] *)
Definition loadPlannerConfigurationMapping (mgr : t) (model : RobotModel) : bool * t :=
  let nh := node_handle (m_ns mgr) in
  let '(loaded, planner_settings_map) := loadPlannerSettings mgr ∅ in
  if negb loaded then (false, mgr)
  else
    match fold_left (group_step nh planner_settings_map)
                    (getJointModelGroupNames model) (Some ∅) with
    | None => (false, mgr)
    | Some pcm => (true, setPlannerConfigurations mgr pcm)
    end.

(** [bool initialize(const robot_model::RobotModelConstPtr& model, const std::string& ns)] *)
Definition initialize (mgr : t) (model : RobotModel) (ns : string) : bool * t :=
  let mgr' := Build (Some model) ns (config_settings_ mgr) (m_sbpl_models mgr) in
  let '(loaded, mgr'') := loadPlannerConfigurationMapping mgr' model in
  if negb loaded then (false, mgr'') else (true, mgr'').

End Manager.
End SBPLPlannerManager.

(** ** Vocabulary of the statements about the manager *)

(** A member of an array or struct that streams as the text [s]. *)
Definition streams `{DoubleFormat} (v : XmlRpc.Value) (s : string) : Prop :=
  stream_member v = Some s.

(** The text of a member of a struct: its name, a blank, its value. *)
Definition member_text (e : string * XmlRpc.Value) (s : string) : string :=
  fst e +:+ " " +:+ s.

(** The text [settings_step] stores for a new parameter: the
    conversion of its value, or nothing when the conversion fails. *)
Definition setting_text `{DoubleFormat} (value : XmlRpc.Value) : string :=
  if fst (xmlToString value "") then snd (xmlToString value "") else "".

(** What [loadPlannerConfigurationMapping] stores under a name: the
    configuration of a joint group that has a parameter, named after
    the group and holding the known parameters, or named
    [group[config]] and holding the settings of that planner
    configuration. *)
Definition configuration_entry (nh : NodeHandle) (groups : list string)
    (planner_settings_map : gmap string (gmap string string))
    (name : string) (pcs : PlannerConfigurationSettings) : Prop :=
  pcs_name pcs = name /\
  In (pcs_group pcs) groups /\
  hasParam nh (pcs_group pcs) = true /\
  ((name = pcs_group pcs /\
    dom (pcs_config pcs) = list_to_set SBPLPlannerManager.known_group_param_names) \/
   (exists planner_config_name,
      name = pcs_group pcs +:+ "[" +:+ planner_config_name +:+ "]" /\
      planner_settings_map !! planner_config_name = Some (pcs_config pcs))).

(** The test of the merging loop of [getPlanningContext]: the name of
    the configuration contains the group name, and the configuration
    has no type or the type of the request. *)
Definition config_matches (req : MotionPlanRequest)
    (entry : string * PlannerConfigurationSettings) : bool :=
  string_contains (fst entry) (group_name req) &&
  match pcs_config (snd entry) !! "type" with
  | None => true
  | Some type => String.eqb type (planner_id req)
  end.

(** The value a configuration offers for a parameter. *)
Definition config_offers (req : MotionPlanRequest) (k : string)
    (entry : string * PlannerConfigurationSettings) : option string :=
  if config_matches req entry then pcs_config (snd entry) !! k else None.

(** The first offer among the configurations in a given order. *)
Definition first_offer (req : MotionPlanRequest) (k : string)
    (l : list (string * PlannerConfigurationSettings)) : option string :=
  foldr (fun e later => match config_offers req k e with
                        | Some v => Some v
                        | None => later
                        end) None l.

(** The order of the entries of a map: by their keys. *)
Definition key_le {V : Type} (a b : string * V) : Prop := String.le (fst a) (fst b).

(** ** A small configuration for the examples *)

(** A stand-in for the renderings of doubles. *)
Definition example_format : DoubleFormat :=
  {| to_string_double := fun _ => "<double>"; stream_double := fun _ => "<double>" |}.

(** The parameter of the group "arm": the known parameters and three
    planner configurations, of which the last does not exist. *)
Definition example_arm_cfg : XmlRpc.Value :=
  XmlRpc.Struct
   [
     ("discretization", XmlRpc.Double 0.25%float);
     ("interpolate_path", XmlRpc.Boolean true);
     ("mprim_filename", XmlRpc.String "arm.mprim");
     ("planner_configs", XmlRpc.Array [XmlRpc.String "ARA"; XmlRpc.String "MHA"; XmlRpc.String "missing"]);
     ("rpy_snap_dist_thresh", XmlRpc.Double 0.5%float);
     ("short_dist_mprims_thresh", XmlRpc.Double 0.5%float);
     ("shortcut_path", XmlRpc.Boolean true);
     ("shortcut_type", XmlRpc.String "joint_space");
     ("use_rpy_snap_mprim", XmlRpc.Boolean true);
     ("use_short_dist_mprims", XmlRpc.Boolean true);
     ("use_xyz_snap_mprim", XmlRpc.Boolean true);
     ("use_xyzrpy_snap_mprim", XmlRpc.Boolean true);
     ("xyz_snap_dist_thresh", XmlRpc.Double 0.5%float);
     ("xyzrpy_snap_dist_thresh", XmlRpc.Double 0.5%float) ].

(** The planner configurations of the parameter server. *)
Definition example_planner_configs : XmlRpc.Value :=
  XmlRpc.Struct
    [ ("ARA", XmlRpc.Struct [ ("epsilon", XmlRpc.Int 100);
                              ("type", XmlRpc.String "ARA*");
                              ("weights", XmlRpc.Array [XmlRpc.Int 1; XmlRpc.Boolean true]) ]);
      ("MHA", XmlRpc.Struct [ ("limits", XmlRpc.Array [XmlRpc.Array []]);
                              ("type", XmlRpc.String "MHA*") ]) ].

(** The parameters under the namespace "move_group"; no other
    namespace has any. *)
Definition example_node_handle (ns : string) : NodeHandle :=
  {| hasParam := fun name =>
       String.eqb ns "move_group" &&
       (String.eqb name "planner_configs" || String.eqb name "arm");
     getParam := fun name =>
       if negb (String.eqb ns "move_group") then None
       else if String.eqb name "planner_configs" then Some example_planner_configs
       else if String.eqb name "arm" then Some example_arm_cfg
       else None |}.

(** A robot model of the planner is stood for by the name of its
    group; it initialises for every group but "legs". *)
Definition example_collaborators : Collaborators :=
  {| node_handle := example_node_handle;
     MoveItRobotModel := string;
     MoveItRobotModel_new := "";
     MoveItRobotModel_init := fun _ _ group => (negb (String.eqb group "legs"), group) |}.

Definition example_robot_model : RobotModel :=
  {| getName := "robot"; getJointModelGroupNames := ["arm"; "legs"] |}.

(** A manager as constructed, and after [initialize]. *)
Definition example_manager_new : @SBPLPlannerManager.t example_collaborators :=
  @SBPLPlannerManager.Build example_collaborators None "" ∅ ∅.

Definition example_manager : @SBPLPlannerManager.t example_collaborators :=
  snd (@SBPLPlannerManager.initialize example_format example_collaborators
         example_manager_new example_robot_model "move_group").

Definition example_no_constraints : Constraints :=
  {| joint_constraints := []; position_constraints := [];
     orientation_constraints := []; visibility_constraints := [] |}.

(** A request for the arm with one pose goal in a unit workspace. *)
Definition example_request (planner : string) : MotionPlanRequest :=
  {| workspace_parameters :=
       {| frame_id := "base";
          min_corner := {| v_x := 0%float; v_y := 0%float; v_z := 0%float |};
          max_corner := {| v_x := 1%float; v_y := 1%float; v_z := 1%float |} |};
     goal_constraints :=
       [ {| joint_constraints := [];
            position_constraints := [ {| link_name := "gripper" |} ];
            orientation_constraints := [ {| orientation_link_name := "gripper" |} ];
            visibility_constraints := [] |} ];
     path_constraints := example_no_constraints;
     trajectory_constraints := [];
     planner_id := planner;
     group_name := "arm";
     allowed_planning_time := 10%float |}.

(** * Properties *)

(** ** Arithmetic of the dense array *)

Lemma mixed_radix_range n m a q :
  0 <= a < n -> 0 <= q < m -> 0 <= a + n * q < n * m.
Proof.
  intros Ha Hq. split; [nia|].
  assert (n * q <= n * (m - 1)) by (apply Z.mul_le_mono_nonneg_l; lia).
  lia.
Qed.

Lemma mixed_radix_inj n a q a' q' :
  0 <= a < n -> 0 <= a' < n -> a + n * q = a' + n * q' -> a = a' /\ q = q'.
Proof.
  intros Ha Ha' E.
  assert (q = q') by nia. subst q'. lia.
Qed.

Lemma int_wrap_id v : is_int v -> int_wrap v = v.
Proof.
  unfold is_int, int_wrap, INT_MIN, INT_MAX. intros Hv.
  rewrite Z.mod_small; lia.
Qed.

Lemma int_wrap_is_int v : is_int (int_wrap v).
Proof.
  unfold is_int, int_wrap, INT_MIN, INT_MAX.
  pose proof (Z.mod_pos_bound (v + 2 ^ 31) (2 ^ 32) ltac:(lia)). lia.
Qed.

(** ** The order of doubles *)

Lemma SFleb_SFltb_trans a b c :
  SFleb a b = true -> SFltb b c = true -> SFleb a c = true.
Proof.
  unfold SFleb, SFltb.
  destruct a as [sa|sa| |sa ma ea], b as [sb|sb| |sb mb eb], c as [sc|sc| |sc mc ec];
    simpl; try discriminate; try reflexivity;
    repeat match goal with s : bool |- _ => destruct s end;
    simpl; try discriminate; try reflexivity.
  all: change (Pos.compare_cont Eq) with Pos.compare.
  all: destruct (Z.compare_spec ea eb), (Z.compare_spec eb ec), (Z.compare_spec ea ec);
    subst; try lia; simpl; try discriminate; try reflexivity.
  all: destruct (Pos.compare_spec ma mb), (Pos.compare_spec mb mc), (Pos.compare_spec ma mc);
    subst; try lia; simpl; try discriminate; try reflexivity.
Qed.

Lemma leb_ltb_trans (d r1 r2 : float) :
  PrimFloat.leb d r1 = true -> PrimFloat.ltb r1 r2 = true -> PrimFloat.leb d r2 = true.
Proof. rewrite !leb_spec, ltb_spec. apply SFleb_SFltb_trans. Qed.

(** ** The engine as an array of cells *)

Section EngineFacts.
Context `{BFS_3D.Library}.
Import BFS_3D.

Lemma inBounds_spec b x y z :
  inBounds b x y z = true <->
  (0 <= x < dim_x b) /\ (0 <= y < dim_y b) /\ (0 <= z < dim_z b).
Proof.
  unfold inBounds. rewrite !andb_true_iff, !Z.leb_le, !Z.ltb_lt. lia.
Qed.

Lemma inBounds_dims b b' x y z :
  dims b' = dims b -> inBounds b' x y z = inBounds b x y z.
Proof. unfold dims, inBounds. intros [= -> -> ->]. reflexivity. Qed.

Lemma getNode_lt b x y z :
  sized b -> inBounds b x y z = true ->
  (getNode b x y z < length (distance_grid b))%nat.
Proof.
  unfold sized, getNode. intros -> [Hx [Hy Hz]]%inBounds_spec.
  pose proof (mixed_radix_range _ _ _ _ Hy Hz) as Hw.
  pose proof (mixed_radix_range _ _ _ _ Hx Hw) as Hi.
  rewrite Z.mul_assoc in Hi.
  apply Z2Nat.inj_lt; lia.
Qed.

Lemma getNode_inj b x y z x' y' z' :
  inBounds b x y z = true -> inBounds b x' y' z' = true ->
  getNode b x y z = getNode b x' y' z' -> (x, y, z) = (x', y', z').
Proof.
  unfold getNode.
  intros [Hx [Hy Hz]]%inBounds_spec [Hx' [Hy' Hz']]%inBounds_spec E.
  pose proof (mixed_radix_range _ _ _ _ Hy Hz) as Hw.
  pose proof (mixed_radix_range _ _ _ _ Hy' Hz') as Hw'.
  apply Z2Nat.inj in E; [|nia..].
  apply mixed_radix_inj in E as [-> E]; [|lia..].
  apply mixed_radix_inj in E as [-> ->]; [|lia..].
  reflexivity.
Qed.

Lemma sized_setDistance b x y z d : sized b -> sized (setDistance b x y z d).
Proof. unfold sized, setDistance. simpl. rewrite length_insert. auto. Qed.

Lemma getDistance_setDistance_eq b x y z d :
  sized b -> inBounds b x y z = true ->
  getDistance (setDistance b x y z d) x y z = d.
Proof.
  intros Hs Hb. unfold getDistance, setDistance, getNode. simpl.
  rewrite list_lookup_insert_eq; [reflexivity|]. by apply getNode_lt.
Qed.

Lemma getDistance_setDistance_ne b x y z d x' y' z' :
  inBounds b x y z = true -> inBounds b x' y' z' = true ->
  (x, y, z) <> (x', y', z') ->
  getDistance (setDistance b x y z d) x' y' z' = getDistance b x' y' z'.
Proof.
  intros Hb Hb' Hne. unfold getDistance, setDistance. simpl.
  rewrite list_lookup_insert_ne; [reflexivity|].
  intros E. apply Hne. by apply (getNode_inj b).
Qed.

Lemma sized_new xc yc zc : sized (new xc yc zc).
Proof. unfold sized, new. simpl. by rewrite length_replicate. Qed.

Lemma getDistance_new xc yc zc x y z :
  inBounds (new xc yc zc) x y z = true ->
  getDistance (new xc yc zc) x y z = UNDISCOVERED.
Proof.
  intros Hb. unfold getDistance.
  pose proof (getNode_lt _ _ _ _ (sized_new xc yc zc) Hb) as Hlt.
  unfold new in *. simpl in *. rewrite length_replicate in Hlt.
  rewrite lookup_replicate_2; [reflexivity|]. exact Hlt.
Qed.

Lemma isWall_spec b x y z : isWall b x y z = true <-> getDistance b x y z = WALL.
Proof. unfold isWall. apply Z.eqb_eq. Qed.

End EngineFacts.

(** ** The sweep of [run] ends with an empty frontier *)

Section RunFacts.
Context `{BFS_3D.Library}.
Import BFS_3D.
Hypothesis undiscovered_negative : UNDISCOVERED < 0.

Lemma count_occ_insert (l : list Z) (i : nat) (u v : Z) :
  l !! i = Some u -> v <> u ->
  (count_occ Z.eq_dec (<[i:=v]> l) u + 1 = count_occ Z.eq_dec l u)%nat.
Proof.
  revert i. induction l as [|a l IH]; intros [|i] Hl Hv; simpl in *; try discriminate.
  - injection Hl as ->. destruct (Z.eq_dec v u), (Z.eq_dec u u); try congruence. lia.
  - specialize (IH i Hl Hv). destruct (Z.eq_dec a u); lia.
Qed.

Lemma getDistance_lookup b x y z :
  sized b -> inBounds b x y z = true ->
  distance_grid b !! getNode b x y z = Some (getDistance b x y z).
Proof.
  intros Hs Hb. unfold getDistance.
  destruct (lookup_lt_is_Some_2 _ _ (getNode_lt b x y z Hs Hb)) as [v ->].
  reflexivity.
Qed.

Lemma visit_measure x y z d b q off :
  sized b -> frontier_ok b q -> 0 <= d ->
  sized (fst (visit x y z d (b, q) off)) /\
  frontier_ok (fst (visit x y z d (b, q) off)) (snd (visit x y z d (b, q) off)) /\
  (length (snd (visit x y z d (b, q) off))
   + undiscovered_count (fst (visit x y z d (b, q) off))
   = length q + undiscovered_count b)%nat.
Proof.
  intros Hs Hq Hd. unfold visit. destruct off as [[dx dy] dz].
  destruct (inBounds b (x + dx) (y + dy) (z + dz)) eqn:Hb; simpl; [|auto].
  destruct (isWall b (x + dx) (y + dy) (z + dz)) eqn:Hw; simpl; [auto|].
  destruct (isUndiscovered b (x + dx) (y + dy) (z + dz)) eqn:Hu; simpl; [|auto].
  apply Z.eqb_eq in Hu.
  split; [by apply sized_setDistance|]. split.
  - apply Forall_app. split.
    + eapply Forall_impl; [exact Hq|]. intros [[cx cy] cz] [Hcb Hcd]. split; [exact Hcb|].
      rewrite getDistance_setDistance_ne; [assumption..|].
      intros [= <- <- <-]. lia.
    + constructor; [|constructor]. split; [exact Hb|].
      rewrite getDistance_setDistance_eq by assumption. lia.
  - rewrite length_app. simpl. unfold undiscovered_count, setDistance. simpl.
    pose proof (count_occ_insert (distance_grid b) (getNode b (x + dx) (y + dy) (z + dz))
                  UNDISCOVERED (d + 1)) as Hc.
    rewrite getDistance_lookup, Hu in Hc by assumption.
    specialize (Hc eq_refl ltac:(lia)). lia.
Qed.

Lemma fold_visit_measure x y z d offs : forall b q,
  sized b -> frontier_ok b q -> 0 <= d ->
  sized (fst (fold_left (visit x y z d) offs (b, q))) /\
  frontier_ok (fst (fold_left (visit x y z d) offs (b, q)))
              (snd (fold_left (visit x y z d) offs (b, q))) /\
  (length (snd (fold_left (visit x y z d) offs (b, q)))
   + undiscovered_count (fst (fold_left (visit x y z d) offs (b, q)))
   = length q + undiscovered_count b)%nat.
Proof.
  induction offs as [|off offs IH]; intros b q Hs Hq Hd; cbn [fold_left]; [auto|].
  destruct (visit_measure x y z d b q off Hs Hq Hd) as (Hs1 & Hq1 & Hm1).
  destruct (visit x y z d (b, q) off) as [b1 q1]. cbn [fst snd] in *.
  destruct (IH b1 q1 Hs1 Hq1 Hd) as (Hs2 & Hq2 & Hm2).
  split; [exact Hs2|]. split; [exact Hq2|]. lia.
Qed.

Lemma search_fuel_enough fuel : forall extra b q,
  sized b -> frontier_ok b q ->
  (length q + undiscovered_count b <= fuel)%nat ->
  search (fuel + extra) b q = search fuel b q.
Proof.
  induction fuel as [|fuel IH]; intros extra b q Hs Hq Hm.
  - destruct q; [|simpl in Hm; lia]. by destruct extra.
  - destruct q as [|[[x y] z] q]; [reflexivity|].
    apply Forall_cons in Hq as [Hhd Hq']. cbn beta iota in Hhd.
    destruct Hhd as [Hb Hd].
    destruct (fold_visit_measure x y z (getDistance b x y z) connectivity b q Hs Hq' Hd)
      as (Hs1 & Hq1 & Hm1).
    change (S fuel + extra)%nat with (S (fuel + extra)). cbn [search].
    destruct (fold_left _ connectivity (b, q)) as [b1 q1]. cbn [fst snd length] in *.
    apply IH; auto. lia.
Qed.

Lemma sized_reset b : sized b -> sized (reset b).
Proof. unfold sized, reset. simpl. by rewrite length_map. Qed.

(** With a negative [UNDISCOVERED], the fuel [run] gives the sweep is
    never exhausted before the frontier: more fuel changes nothing. *)
Lemma run_fuel_enough b x y z extra :
  sized b -> inBounds b x y z = true ->
  search (S (length (distance_grid b)) + extra)
         (setDistance (reset b) x y z 0) [(x, y, z)]
  = run b x y z.
Proof.
  intros Hs Hb. unfold run. apply search_fuel_enough.
  - by apply sized_setDistance, sized_reset.
  - constructor; [|constructor]. split; [exact Hb|].
    rewrite getDistance_setDistance_eq; [lia|by apply sized_reset|exact Hb].
  - unfold undiscovered_count.
    pose proof (count_occ_bound Z.eq_dec UNDISCOVERED
                  (distance_grid (setDistance (reset b) x y z 0))) as Hc.
    assert (Hl : length (distance_grid (setDistance (reset b) x y z 0))
                 = length (distance_grid b)).
    { unfold setDistance, reset. simpl. by rewrite length_insert, length_map. }
    rewrite Hl in Hc. cbn [length]. lia.
Qed.
End RunFacts.

(** ** The loops of [syncGridAndBfs] *)

Section SyncFacts.
Context `{BFS_3D.Library}.
Import BFS_3D.

Lemma marked_refl b : sized b -> marked (fun _ _ _ => false) b b.
Proof. intros Hs. repeat split; auto. Qed.

Lemma marked_trans P Q b b' b'' :
  marked P b b' -> marked Q b' b'' ->
  marked (fun x y z => P x y z || Q x y z) b b''.
Proof.
  intros (Hd & Hs & HP) (Hd' & Hs' & HQ). split; [congruence|]. split; [assumption|].
  intros x y z Hb. rewrite HQ by (by rewrite (inBounds_dims b b')).
  rewrite HP by assumption.
  destruct (P x y z), (Q x y z); reflexivity.
Qed.

Lemma marked_ext P Q b b' :
  marked P b b' ->
  (forall x y z, inBounds b x y z = true -> P x y z = Q x y z) ->
  marked Q b b'.
Proof.
  intros (Hd & Hs & HP) E. repeat split; auto.
  intros x y z Hb. rewrite <- E by assumption. auto.
Qed.

(** A loop whose every iteration marks some cells marks their union. *)
Lemma marked_fold {K : Type} (f : t * Z -> K -> t * Z)
    (P : K -> Z -> Z -> Z -> bool) (b0 : t) (l : list K) :
  (forall k st, In k l -> sized (fst st) -> dims (fst st) = dims b0 ->
     marked (P k) (fst st) (fst (f st k))) ->
  forall st, sized (fst st) -> dims (fst st) = dims b0 ->
    marked (fun x y z => existsb (fun k => P k x y z) l)
           (fst st) (fst (fold_left f l st)).
Proof.
  induction l as [|k l IH]; intros Hstep st Hs Hd; simpl.
  - by apply marked_refl.
  - pose proof (Hstep k st (or_introl eq_refl) Hs Hd) as M1.
    eapply marked_trans; [exact M1|].
    destruct M1 as (Hd1 & Hs1 & _).
    apply IH; [|assumption|congruence].
    intros k' st' Hin. apply Hstep. by right.
Qed.

Lemma existsb_seqZ_pick (g : Z -> bool) (n k : Z) :
  0 <= k < n -> existsb (fun i => (i =? k) && g i) (seqZ 0 n) = g k.
Proof.
  intros Hk. destruct (g k) eqn:E.
  - apply existsb_exists. exists k. split.
    + apply list_elem_of_In, elem_of_seqZ. lia.
    + by rewrite Z.eqb_refl.
  - apply not_true_is_false. intros (i & _ & Hi)%existsb_exists.
    apply andb_true_iff in Hi as [->%Z.eqb_eq Hg]. congruence.
Qed.

Lemma sync_cell_marked h x y z st :
  sized (fst st) -> inBounds (fst st) x y z = true ->
  marked (fun x' y' z' =>
            (x =? x') && ((y =? y') && ((z =? z') && BfsHeuristic.too_close h x y z)))
         (fst st) (fst (BfsHeuristic.sync_cell h z y st x)).
Proof.
  intros Hs Hb. unfold BfsHeuristic.sync_cell.
  destruct (BfsHeuristic.too_close h x y z) eqn:E; simpl.
  - split; [reflexivity|]. split; [by apply sized_setDistance|].
    intros x' y' z' Hb'. unfold setWall.
    destruct (decide ((x, y, z) = (x', y', z'))) as [[= <- <- <-]|Hne].
    + rewrite !Z.eqb_refl. simpl. by apply getDistance_setDistance_eq.
    + rewrite getDistance_setDistance_ne by assumption.
      destruct (Z.eqb_spec x x'), (Z.eqb_spec y y'), (Z.eqb_spec z z'); simpl;
        try reflexivity. congruence.
  - eapply marked_ext; [by apply marked_refl|].
    intros x' y' z' _. by rewrite !andb_false_r.
Qed.

Lemma sync_row_marked h b0 xc y z st :
  sized (fst st) -> dims (fst st) = dims b0 ->
  xc = dim_x b0 -> 0 <= y < dim_y b0 -> 0 <= z < dim_z b0 ->
  marked (fun x' y' z' => (y =? y') && ((z =? z') && BfsHeuristic.too_close h x' y z))
         (fst st) (fst (BfsHeuristic.sync_row h xc z st y)).
Proof.
  intros Hs Hd -> Hy Hz. unfold BfsHeuristic.sync_row.
  eapply marked_ext.
  - apply (marked_fold _ (fun x x' y' z' =>
        (x =? x') && ((y =? y') && ((z =? z') && BfsHeuristic.too_close h x y z))) b0);
      [|assumption..].
    intros x st' Hin%list_elem_of_In%elem_of_seqZ Hs' Hd'.
    apply sync_cell_marked; [assumption|].
    rewrite (inBounds_dims b0) by assumption. apply inBounds_spec. lia.
  - intros x' y' z' Hb. simpl.
    rewrite (inBounds_dims b0) in Hb by assumption.
    apply inBounds_spec in Hb.
    rewrite <- (existsb_seqZ_pick
                  (fun i => (y =? y') && ((z =? z') && BfsHeuristic.too_close h i y z))
                  (dim_x b0) x') by lia.
    reflexivity.
Qed.

Lemma sync_plane_marked h b0 xc yc z st :
  sized (fst st) -> dims (fst st) = dims b0 ->
  xc = dim_x b0 -> yc = dim_y b0 -> 0 <= z < dim_z b0 ->
  marked (fun x' y' z' => (z =? z') && BfsHeuristic.too_close h x' y' z)
         (fst st) (fst (BfsHeuristic.sync_plane h xc yc st z)).
Proof.
  intros Hs Hd -> -> Hz. unfold BfsHeuristic.sync_plane.
  eapply marked_ext.
  - apply (marked_fold _ (fun y x' y' z' =>
        (y =? y') && ((z =? z') && BfsHeuristic.too_close h x' y z)) b0);
      [|assumption..].
    intros y st' Hin%list_elem_of_In%elem_of_seqZ Hs' Hd'.
    apply (sync_row_marked h b0); auto; lia.
  - intros x' y' z' Hb. simpl.
    rewrite (inBounds_dims b0) in Hb by assumption.
    apply inBounds_spec in Hb.
    rewrite <- (existsb_seqZ_pick
                  (fun i => (z =? z') && BfsHeuristic.too_close h x' i z)
                  (dim_y b0) y') by lia.
    reflexivity.
Qed.

(** The three loops write [WALL] at exactly the cells of the grid that
    pass the test, into a new engine of the size of the grid. *)
Lemma sync_loops_marked h xc yc zc :
  OccupancyGrid.getGridSize (BfsHeuristic.m_grid h) = (xc, yc, zc) ->
  marked (BfsHeuristic.too_close h) (new xc yc zc) (fst (BfsHeuristic.sync_loops h)).
Proof.
  intros Hg. unfold BfsHeuristic.sync_loops. rewrite Hg.
  eapply marked_ext.
  - refine (marked_fold _
              (fun z x' y' z' => (z =? z') && BfsHeuristic.too_close h x' y' z)
              (new xc yc zc) _ _ (new xc yc zc, 0) (sized_new _ _ _) eq_refl).
    intros z st' Hin%list_elem_of_In%elem_of_seqZ Hs' Hd'.
    apply (sync_plane_marked h (new xc yc zc)); auto; simpl; lia.
  - intros x' y' z' Hb. simpl. apply inBounds_spec in Hb. simpl in Hb.
    rewrite <- (existsb_seqZ_pick (fun i => BfsHeuristic.too_close h x' y' i) zc z')
      by lia.
    reflexivity.
Qed.

Lemma syncGridAndBfs_getDistance h xc yc zc x y z :
  OccupancyGrid.getGridSize (BfsHeuristic.m_grid h) = (xc, yc, zc) ->
  0 <= x < xc -> 0 <= y < yc -> 0 <= z < zc ->
  getDistance (BfsHeuristic.m_bfs (BfsHeuristic.syncGridAndBfs h)) x y z =
    if BfsHeuristic.too_close h x y z then WALL else UNDISCOVERED.
Proof.
  intros Hg Hx Hy Hz. simpl.
  destruct (sync_loops_marked h xc yc zc Hg) as (_ & _ & HP).
  assert (Hb : inBounds (new xc yc zc) x y z = true)
    by (apply inBounds_spec; simpl; lia).
  rewrite HP by assumption. by rewrite getDistance_new.
Qed.

End SyncFacts.

(** ** The entry points of the heuristic *)

Section HeuristicFacts.
Context `{BFS_3D.Library}.
Import BfsHeuristic.

Lemma getBfsCostToGoal_out_of_bounds h bfs x y z :
  BFS_3D.inBounds bfs x y z = false -> getBfsCostToGoal h bfs x y z = INT_MAX.
Proof. unfold getBfsCostToGoal. by intros ->. Qed.

Lemma getBfsCostToGoal_wall h bfs x y z :
  BFS_3D.getDistance bfs x y z = BFS_3D.WALL -> getBfsCostToGoal h bfs x y z = INT_MAX.
Proof.
  unfold getBfsCostToGoal. intros ->. rewrite Z.eqb_refl.
  by destruct (negb _).
Qed.

Lemma getBfsCostToGoal_scaled h bfs x y z :
  BFS_3D.inBounds bfs x y z = true ->
  BFS_3D.getDistance bfs x y z <> BFS_3D.WALL ->
  getBfsCostToGoal h bfs x y z =
    int_mul (cost_per_cell_ (m_params h)) (BFS_3D.getDistance bfs x y z).
Proof.
  unfold getBfsCostToGoal. intros -> Hd%Z.eqb_neq. simpl. by rewrite Hd.
Qed.

(** C1 (as amended): a goal cell out of the bounds of the engine makes
    [setGoal] report failure and leaves the heuristic, hence the
    distance field, exactly as it was; every goal cell in bounds, a
    wall cell included, makes it run the wavefront from that cell and
    report success. *)
Theorem setGoal_spec (h : t) (x y z : Z) :
  (BFS_3D.inBounds (m_bfs h) x y z = false -> setGoal h x y z = (false, h)) /\
  (BFS_3D.inBounds (m_bfs h) x y z = true ->
     setGoal h x y z = (true, set_bfs h (BFS_3D.run (m_bfs h) x y z))).
Proof.
  unfold setGoal. split; intros Hb; rewrite Hb; reflexivity.
Qed.

(** C2 (as amended): the cost of a cell is [INT_MAX] when the cell is
    out of bounds or carries [WALL], and otherwise the product of
    [cost_per_cell_] and the distance of the cell in 32-bit
    arithmetic, which is the exact product when that fits an [int].
    When the exact product is an [int] below [INT_MAX], the sentinel
    is returned only for cells out of bounds and walls.  For a
    non-negative [cost_per_cell_] and products that fit, the cost does
    not decrease when the distance grows. *)
Theorem getBfsCostToGoal_spec (h : t) (bfs : BFS_3D.t) (x y z : Z) :
  let c := cost_per_cell_ (m_params h) in
  let d := BFS_3D.getDistance bfs x y z in
  (BFS_3D.inBounds bfs x y z = false \/ d = BFS_3D.WALL ->
     getBfsCostToGoal h bfs x y z = INT_MAX) /\
  (BFS_3D.inBounds bfs x y z = true -> d <> BFS_3D.WALL ->
     getBfsCostToGoal h bfs x y z = int_mul c d /\
     (is_int (c * d) -> getBfsCostToGoal h bfs x y z = c * d)) /\
  (is_int (c * d) -> c * d < INT_MAX ->
     (getBfsCostToGoal h bfs x y z = INT_MAX <->
      BFS_3D.inBounds bfs x y z = false \/ d = BFS_3D.WALL)) /\
  (forall x' y' z',
     let d' := BFS_3D.getDistance bfs x' y' z' in
     BFS_3D.inBounds bfs x y z = true -> BFS_3D.inBounds bfs x' y' z' = true ->
     d <> BFS_3D.WALL -> d' <> BFS_3D.WALL ->
     0 <= c -> is_int (c * d) -> is_int (c * d') -> d <= d' ->
     getBfsCostToGoal h bfs x y z <= getBfsCostToGoal h bfs x' y' z').
Proof.
  intros c d.
  assert (Hsent : BFS_3D.inBounds bfs x y z = false \/ d = BFS_3D.WALL ->
                  getBfsCostToGoal h bfs x y z = INT_MAX).
  { intros [Hb|Hw];
      [by apply getBfsCostToGoal_out_of_bounds | by apply getBfsCostToGoal_wall]. }
  assert (Hexact : BFS_3D.inBounds bfs x y z = true -> d <> BFS_3D.WALL ->
                   is_int (c * d) -> getBfsCostToGoal h bfs x y z = c * d).
  { intros Hb Hd Hi. rewrite getBfsCostToGoal_scaled by assumption.
    by apply int_wrap_id. }
  split; [exact Hsent|]. split; [|split].
  - intros Hb Hd. split; [by apply getBfsCostToGoal_scaled | by apply Hexact].
  - intros Hi Hlt. split; [|exact Hsent].
    intros E. destruct (BFS_3D.inBounds bfs x y z) eqn:Hb; [|by left].
    destruct (decide (d = BFS_3D.WALL)) as [Hw|Hw]; [by right|].
    rewrite Hexact in E by auto. lia.
  - intros x' y' z' d' Hb Hb' Hd Hd' Hc Hi Hi' Hle.
    rewrite Hexact by auto.
    rewrite getBfsCostToGoal_scaled by assumption.
    unfold int_mul. rewrite int_wrap_id by assumption.
    apply Z.mul_le_mono_nonneg_l; assumption.
Qed.

(** The cost of an undiscovered cell is the scaled sentinel; for an
    even [cost_per_cell_] it cannot be [INT_MAX], which is odd. *)
Lemma getBfsCostToGoal_undiscovered h bfs x y z :
  BFS_3D.inBounds bfs x y z = true ->
  BFS_3D.getDistance bfs x y z = BFS_3D.UNDISCOVERED ->
  getBfsCostToGoal h bfs x y z =
    int_mul (cost_per_cell_ (m_params h)) BFS_3D.UNDISCOVERED /\
  (Z.even (cost_per_cell_ (m_params h)) = true ->
   getBfsCostToGoal h bfs x y z <> INT_MAX).
Proof.
  intros Hb Hu.
  assert (E : getBfsCostToGoal h bfs x y z =
              int_mul (cost_per_cell_ (m_params h)) BFS_3D.UNDISCOVERED).
  { rewrite getBfsCostToGoal_scaled; [by rewrite Hu|assumption|].
    rewrite Hu. intros E. by apply BFS_3D.sentinels_distinct. }
  split; [exact E|].
  intros [k Hk]%Z.even_spec. rewrite E, Hk.
  unfold int_mul, int_wrap, INT_MAX.
  pose proof (Z.div_mod (2 * k * BFS_3D.UNDISCOVERED + 2 ^ 31) (2 ^ 32) ltac:(lia)).
  pose proof (Z.mod_pos_bound (2 * k * BFS_3D.UNDISCOVERED + 2 ^ 31) (2 ^ 32) ltac:(lia)).
  nia.
Qed.

(** C4: [syncGridAndBfs] builds an engine of exactly the size of the
    clearance grid, with one entry per cell, in which a cell of the
    grid is a wall if and only if its clearance is at most
    [planning_link_sphere_radius_]; every cell of the grid is
    classified, as a wall or as a free cell that carries
    [UNDISCOVERED]. *)
Theorem syncGridAndBfs_classifies (h : t) (xc yc zc : Z) :
  OccupancyGrid.getGridSize (m_grid h) = (xc, yc, zc) ->
  let bfs := m_bfs (syncGridAndBfs h) in
  BFS_3D.dims bfs = (xc, yc, zc) /\
  BFS_3D.sized bfs /\
  forall x y z, 0 <= x < xc -> 0 <= y < yc -> 0 <= z < zc ->
    (BFS_3D.isWall bfs x y z = true <->
     PrimFloat.leb (OccupancyGrid.getDistance (m_grid h) x y z)
                   (planning_link_sphere_radius_ (m_params h)) = true) /\
    BFS_3D.getDistance bfs x y z =
      (if BFS_3D.isWall bfs x y z then BFS_3D.WALL else BFS_3D.UNDISCOVERED).
Proof.
  intros Hg bfs.
  destruct (sync_loops_marked h xc yc zc Hg) as (Hd & Hs & _).
  split; [exact Hd|]. split; [exact Hs|].
  intros x y z Hx Hy Hz.
  pose proof (syncGridAndBfs_getDistance h xc yc zc x y z Hg Hx Hy Hz) as E.
  fold bfs in E. unfold BFS_3D.isWall. rewrite E.
  fold (too_close h x y z). destruct (too_close h x y z).
  - rewrite Z.eqb_refl. tauto.
  - assert (Hne : (BFS_3D.UNDISCOVERED =? BFS_3D.WALL) = false).
    { apply Z.eqb_neq. intros E'. by apply BFS_3D.sentinels_distinct. }
    rewrite Hne. split; [|reflexivity]. split; discriminate.
Qed.

(** C9: over one clearance grid, the walls built with a radius [r1]
    are among the walls built with any radius [r2] above [r1]. *)
Theorem syncGridAndBfs_monotone_in_radius (h1 h2 : t) (xc yc zc : Z) :
  m_grid h1 = m_grid h2 ->
  OccupancyGrid.getGridSize (m_grid h1) = (xc, yc, zc) ->
  PrimFloat.ltb (planning_link_sphere_radius_ (m_params h1))
                (planning_link_sphere_radius_ (m_params h2)) = true ->
  forall x y z, 0 <= x < xc -> 0 <= y < yc -> 0 <= z < zc ->
    BFS_3D.isWall (m_bfs (syncGridAndBfs h1)) x y z = true ->
    BFS_3D.isWall (m_bfs (syncGridAndBfs h2)) x y z = true.
Proof.
  intros Hgrid Hg Hlt x y z Hx Hy Hz.
  assert (Hg2 : OccupancyGrid.getGridSize (m_grid h2) = (xc, yc, zc))
    by (by rewrite <- Hgrid).
  unfold BFS_3D.isWall.
  rewrite (syncGridAndBfs_getDistance h1 xc yc zc) by assumption.
  rewrite (syncGridAndBfs_getDistance h2 xc yc zc) by assumption.
  destruct (too_close h1 x y z) eqn:E1.
  - intros _. unfold too_close in *. rewrite <- Hgrid.
    rewrite (leb_ltb_trans _ _ _ E1 Hlt). apply Z.eqb_refl.
  - intros E%Z.eqb_eq. exfalso. by apply BFS_3D.sentinels_distinct.
Qed.

(** C5: [getMetricGoalDistance] converts the point to a cell with the
    grid's [worldToGrid]; for a cell out of the bounds of the engine it
    returns [(double)WALL] times the resolution, and for any other
    cell the distance of the cell, as a double, times the
    resolution.  The heuristic is not changed. *)
Theorem getMetricGoalDistance_spec (h : t) (x y z : float) (gx gy gz : Z) :
  OccupancyGrid.worldToGrid (m_grid h) x y z = (gx, gy, gz) ->
  (BFS_3D.inBounds (m_bfs h) gx gy gz = false ->
     getMetricGoalDistance h x y z =
       (PrimFloat.mul (double_of_int BFS_3D.WALL)
                      (OccupancyGrid.getResolution (m_grid h)), h)) /\
  (BFS_3D.inBounds (m_bfs h) gx gy gz = true ->
     getMetricGoalDistance h x y z =
       (PrimFloat.mul (double_of_int (BFS_3D.getDistance (m_bfs h) gx gy gz))
                      (OccupancyGrid.getResolution (m_grid h)), h)).
Proof.
  intros Hw. unfold getMetricGoalDistance. rewrite Hw.
  split; intros ->; reflexivity.
Qed.

(** C10: for a point whose cell is an in-bounds wall,
    [getMetricGoalDistance] returns [(double)WALL] times the
    resolution, the very value it returns for every point whose cell
    is out of bounds. *)
Theorem getMetricGoalDistance_wall_cell (h : t) (x y z : float) (gx gy gz : Z) :
  OccupancyGrid.worldToGrid (m_grid h) x y z = (gx, gy, gz) ->
  BFS_3D.inBounds (m_bfs h) gx gy gz = true ->
  BFS_3D.isWall (m_bfs h) gx gy gz = true ->
  fst (getMetricGoalDistance h x y z) =
    PrimFloat.mul (double_of_int BFS_3D.WALL)
                  (OccupancyGrid.getResolution (m_grid h)) /\
  forall (x' y' z' : float) (gx' gy' gz' : Z),
    OccupancyGrid.worldToGrid (m_grid h) x' y' z' = (gx', gy', gz') ->
    BFS_3D.inBounds (m_bfs h) gx' gy' gz' = false ->
    fst (getMetricGoalDistance h x y z) = fst (getMetricGoalDistance h x' y' z').
Proof.
  intros Hw Hb Hwall%isWall_spec.
  assert (E : fst (getMetricGoalDistance h x y z) =
              PrimFloat.mul (double_of_int BFS_3D.WALL)
                            (OccupancyGrid.getResolution (m_grid h))).
  { unfold getMetricGoalDistance. rewrite Hw, Hb. simpl. by rewrite Hwall. }
  split; [exact E|].
  intros x' y' z' gx' gy' gz' Hw' Hb'. rewrite E.
  unfold getMetricGoalDistance. rewrite Hw', Hb'. reflexivity.
Qed.

(** C7: [GetGoalHeuristic] returns 0 for a state identifier the
    environment cannot resolve, and for a resolved one the value of
    [getBfsCostToGoal] at the cell of the state; the heuristic is not
    changed either way. *)
Theorem GetGoalHeuristic_spec (h : t) (state_id : Z) :
  (EnvironmentROBARM3D.getHashEntry (m_manip_env h) state_id = None ->
     GetGoalHeuristic h state_id = (0, h)) /\
  (forall x y z,
     EnvironmentROBARM3D.getHashEntry (m_manip_env h) state_id
       = Some {| xyz := (x, y, z) |} ->
     GetGoalHeuristic h state_id = (getBfsCostToGoal h (m_bfs h) x y z, h)).
Proof.
  unfold GetGoalHeuristic. split.
  - by intros ->.
  - intros x y z ->. reflexivity.
Qed.

(** C6: [GetFromToHeuristic] returns what [GetGoalHeuristic] returns
    for [from_id] when the environment recognises [to_id] as the goal,
    and 0 for every other pair. *)
Theorem GetFromToHeuristic_spec (h : t) (from_id to_id : Z) :
  (EnvironmentROBARM3D.isGoal (m_manip_env h) to_id = true ->
     GetFromToHeuristic h from_id to_id = GetGoalHeuristic h from_id) /\
  (EnvironmentROBARM3D.isGoal (m_manip_env h) to_id = false ->
     GetFromToHeuristic h from_id to_id = (0, h)).
Proof.
  unfold GetFromToHeuristic. split; by intros ->.
Qed.

(** C8: [GetStartHeuristic] returns 0 for every state identifier and
    leaves the heuristic, with its engine, as it was. *)
Theorem GetStartHeuristic_zero (h : t) (state_id : Z) :
  fst (GetStartHeuristic h state_id) = 0 /\
  snd (GetStartHeuristic h state_id) = h /\
  m_bfs (snd (GetStartHeuristic h state_id)) = m_bfs h.
Proof.
  unfold GetStartHeuristic. simpl. auto.
Qed.

End HeuristicFacts.

(** ** The statements at the example scene *)

(** The scene as built: the middle cell is the only wall; after the
    goal is set at the first cell the last one stays undiscovered. *)
Example example_heuristic_field :
  BFS_3D.distance_grid (BfsHeuristic.m_bfs example_heuristic) = [-1; 2147483647; -1] /\
  BFS_3D.distance_grid (BfsHeuristic.m_bfs example_heuristic_goal) = [0; 2147483647; -1] /\
  BFS_3D.distance_grid (BfsHeuristic.m_bfs (example_free_goal 100)) = [0; 1; 2].
Proof. vm_compute. auto. Qed.

(** In the cube, with the six face neighbours, the centre is at
    distance 0 and a corner six steps away; the centre of a face is
    two steps away. *)
Example example_cube_distances :
  @BFS_3D.getDistance example_library (BfsHeuristic.m_bfs example_cube_goal) 2 2 2 = 0 /\
  @BFS_3D.getDistance example_library (BfsHeuristic.m_bfs example_cube_goal) 0 0 0 = 6 /\
  @BFS_3D.getDistance example_library (BfsHeuristic.m_bfs example_cube_goal) 2 2 4 = 2 /\
  @BfsHeuristic.getBfsCostToGoal example_library example_cube_goal
     (BfsHeuristic.m_bfs example_cube_goal) 0 0 0 = 600.
Proof. vm_compute. auto. Qed.

(** In the scene the sentinel of undiscovered cells is negative, so
    the sweep from the first cell is complete: five pops more would
    leave the same field. *)
Example example_run_complete :
  @BFS_3D.search example_library (S 3 + 5)
     (BFS_3D.setDistance
        (@BFS_3D.reset example_library (BfsHeuristic.m_bfs example_heuristic)) 0 0 0 0)
     [(0, 0, 0)]
  = @BFS_3D.run example_library (BfsHeuristic.m_bfs example_heuristic) 0 0 0.
Proof.
  apply (@run_fuel_enough example_library); [reflexivity | | reflexivity].
  unfold BFS_3D.sized. reflexivity.
Qed.

(** The product of [getBfsCostToGoal] leaves the range of [int] for
    large factors; the model then wraps as the hardware does. *)
Example int_mul_wraps :
  int_mul 1073741824 1 = 1073741824 /\ int_mul 1073741824 2 = INT_MIN.
Proof. vm_compute. auto. Qed.

(** C1, witness: the cell (3, 0, 0) is out of bounds. *)
Lemma setGoal_spec_witness :
  @BfsHeuristic.setGoal example_library example_heuristic 3 0 0
    = (false, example_heuristic).
Proof.
  exact (proj1 (@setGoal_spec example_library example_heuristic 3 0 0) eq_refl).
Defined.

(** C1, counterexample: the middle cell of the scene is in bounds and
    a wall, and [setGoal] at it reports success; the engine it leaves
    is the result of [run], which is not the field it started from. *)
Lemma setGoal_wall_goal_reports_success :
  BFS_3D.inBounds (BfsHeuristic.m_bfs example_heuristic) 1 0 0 = true /\
  @BFS_3D.isWall example_library (BfsHeuristic.m_bfs example_heuristic) 1 0 0 = true /\
  fst (@BfsHeuristic.setGoal example_library example_heuristic 1 0 0) = true /\
  BfsHeuristic.m_bfs (snd (@BfsHeuristic.setGoal example_library example_heuristic 1 0 0))
    = @BFS_3D.run example_library (BfsHeuristic.m_bfs example_heuristic) 1 0 0 /\
  BFS_3D.distance_grid (BfsHeuristic.m_bfs example_heuristic) = [-1; 2147483647; -1] /\
  BFS_3D.distance_grid
    (BfsHeuristic.m_bfs (snd (@BfsHeuristic.setGoal example_library example_heuristic 1 0 0)))
    = [1; 0; 1].
Proof. vm_compute. repeat split. Qed.

(** C2, witness: over the free scene with 100 per cell, the cell at
    distance 1 costs 100, and no more than the cell at distance 2. *)
Lemma getBfsCostToGoal_spec_witness :
  @BfsHeuristic.getBfsCostToGoal example_library (example_free_goal 100)
     (BfsHeuristic.m_bfs (example_free_goal 100)) 1 0 0 = 100 * 1 /\
  @BfsHeuristic.getBfsCostToGoal example_library (example_free_goal 100)
     (BfsHeuristic.m_bfs (example_free_goal 100)) 1 0 0
  <= @BfsHeuristic.getBfsCostToGoal example_library (example_free_goal 100)
     (BfsHeuristic.m_bfs (example_free_goal 100)) 2 0 0.
Proof.
  destruct (@getBfsCostToGoal_spec example_library (example_free_goal 100)
              (BfsHeuristic.m_bfs (example_free_goal 100)) 1 0 0)
    as (_ & Hscaled & _ & Hmono).
  split.
  - apply Hscaled; [reflexivity | vm_compute; discriminate
                   | vm_compute; split; discriminate].
  - apply Hmono; try reflexivity; try (vm_compute; discriminate);
      vm_compute; split; discriminate.
Defined.

(** C2, counterexample: with [cost_per_cell_ = INT_MAX] the free cell
    at distance 1 costs [INT_MAX], the sentinel, although it is in
    bounds and no wall; with [cost_per_cell_ = -1] the cell at
    distance 2 costs less than the cell at distance 1. *)
Lemma getBfsCostToGoal_sentinel_collision :
  (BFS_3D.inBounds (BfsHeuristic.m_bfs (example_free_goal INT_MAX)) 1 0 0 = true /\
   @BFS_3D.getDistance example_library
      (BfsHeuristic.m_bfs (example_free_goal INT_MAX)) 1 0 0 = 1 /\
   @BFS_3D.isWall example_library
      (BfsHeuristic.m_bfs (example_free_goal INT_MAX)) 1 0 0 = false /\
   @BfsHeuristic.getBfsCostToGoal example_library (example_free_goal INT_MAX)
      (BfsHeuristic.m_bfs (example_free_goal INT_MAX)) 1 0 0 = INT_MAX) /\
  (@BFS_3D.getDistance example_library
      (BfsHeuristic.m_bfs (example_free_goal (-1))) 1 0 0 = 1 /\
   @BFS_3D.getDistance example_library
      (BfsHeuristic.m_bfs (example_free_goal (-1))) 2 0 0 = 2 /\
   @BfsHeuristic.getBfsCostToGoal example_library (example_free_goal (-1))
      (BfsHeuristic.m_bfs (example_free_goal (-1))) 1 0 0 = -1 /\
   @BfsHeuristic.getBfsCostToGoal example_library (example_free_goal (-1))
      (BfsHeuristic.m_bfs (example_free_goal (-1))) 2 0 0 = -2).
Proof. vm_compute. repeat split. Qed.

(** C3, at the failing input: the last cell of the scene is free, in
    bounds and cut off from the goal by the wall; its cost is
    [100 * UNDISCOVERED], not [INT_MAX]. *)
Lemma getBfsCostToGoal_undiscovered_witness :
  @BfsHeuristic.getBfsCostToGoal example_library example_heuristic_goal
     (BfsHeuristic.m_bfs example_heuristic_goal) 2 0 0 = int_mul 100 (-1) /\
  @BfsHeuristic.getBfsCostToGoal example_library example_heuristic_goal
     (BfsHeuristic.m_bfs example_heuristic_goal) 2 0 0 <> INT_MAX.
Proof.
  destruct (@getBfsCostToGoal_undiscovered example_library example_heuristic_goal
              (BfsHeuristic.m_bfs example_heuristic_goal) 2 0 0 eq_refl eq_refl)
    as [Hcost Hne].
  split; [exact Hcost | exact (Hne eq_refl)].
Defined.

(** The same through the state identifier: state 7 sits at the last
    cell, and its goal heuristic is -100. *)
Example GetGoalHeuristic_undiscovered_cell :
  EnvironmentROBARM3D.getHashEntry example_env 7 = Some {| xyz := (2, 0, 0) |} /\
  @BFS_3D.isUndiscovered example_library
     (BfsHeuristic.m_bfs example_heuristic_goal) 2 0 0 = true /\
  fst (@BfsHeuristic.GetGoalHeuristic example_library example_heuristic_goal 7) = -100.
Proof. vm_compute. repeat split. Qed.

(** C4, witness: the scene has size 3 x 1 x 1; its middle cell has
    clearance 0, at most the radius 0.25, and is the wall. *)
Lemma syncGridAndBfs_classifies_witness :
  BFS_3D.dims (BfsHeuristic.m_bfs (@BfsHeuristic.syncGridAndBfs example_library example_heuristic))
    = (3, 1, 1) /\
  (@BFS_3D.isWall example_library
      (BfsHeuristic.m_bfs (@BfsHeuristic.syncGridAndBfs example_library example_heuristic))
      1 0 0 = true <->
   PrimFloat.leb (OccupancyGrid.getDistance (BfsHeuristic.m_grid example_heuristic) 1 0 0)
                 (planning_link_sphere_radius_ (BfsHeuristic.m_params example_heuristic))
     = true) /\
  @BFS_3D.getDistance example_library
      (BfsHeuristic.m_bfs (@BfsHeuristic.syncGridAndBfs example_library example_heuristic))
      0 0 0 = -1.
Proof.
  destruct (@syncGridAndBfs_classifies example_library example_heuristic 3 1 1 eq_refl)
    as (Hdims & _ & Hcells).
  split; [exact Hdims|]. split.
  - apply (Hcells 1 0 0); lia.
  - destruct (Hcells 0 0 0) as [_ E]; [lia..|]. exact E.
Defined.

(** C9, witness: the wall of the scene at radius 0.25 is a wall at
    radius 2 as well. *)
Lemma syncGridAndBfs_monotone_in_radius_witness :
  @BFS_3D.isWall example_library
     (BfsHeuristic.m_bfs (@BfsHeuristic.syncGridAndBfs example_library example_wide_heuristic))
     1 0 0 = true.
Proof.
  apply (@syncGridAndBfs_monotone_in_radius example_library
           example_heuristic example_wide_heuristic 3 1 1);
    try reflexivity; lia.
Defined.

(** C5, witness: the point (1.25, 0.25, 0.25) lies in the last cell,
    two steps from the goal of the free scene, that is one metre; the
    point (2, 0.25, 0.25) lies beyond the grid. *)
Lemma getMetricGoalDistance_spec_witness :
  @BfsHeuristic.getMetricGoalDistance example_library (example_free_goal 100)
     1.25%float 0.25%float 0.25%float = (1%float, example_free_goal 100) /\
  @BfsHeuristic.getMetricGoalDistance example_library (example_free_goal 100)
     2%float 0.25%float 0.25%float = (1073741823.5%float, example_free_goal 100).
Proof.
  split.
  - exact (proj2 (@getMetricGoalDistance_spec example_library (example_free_goal 100)
                    1.25%float 0.25%float 0.25%float 2 0 0 eq_refl) eq_refl).
  - exact (proj1 (@getMetricGoalDistance_spec example_library (example_free_goal 100)
                    2%float 0.25%float 0.25%float 3 0 0 eq_refl) eq_refl).
Defined.

(** C10, witness: the point (0.75, 0.25, 0.25) lies in the wall of the
    scene and gets the value of the point (2, 0.25, 0.25) beyond the
    grid. *)
Lemma getMetricGoalDistance_wall_cell_witness :
  fst (@BfsHeuristic.getMetricGoalDistance example_library example_heuristic
         0.75%float 0.25%float 0.25%float) = 1073741823.5%float /\
  fst (@BfsHeuristic.getMetricGoalDistance example_library example_heuristic
         0.75%float 0.25%float 0.25%float)
  = fst (@BfsHeuristic.getMetricGoalDistance example_library example_heuristic
         2%float 0.25%float 0.25%float).
Proof.
  destruct (@getMetricGoalDistance_wall_cell example_library example_heuristic
              0.75%float 0.25%float 0.25%float 1 0 0 eq_refl eq_refl eq_refl)
    as [Hvalue Hsame].
  split; [exact Hvalue|].
  exact (Hsame 2%float 0.25%float 0.25%float 3 0 0 eq_refl eq_refl).
Defined.

(** C7, witness: no state has the identifier 9; state 5 sits at the
    first cell. *)
Lemma GetGoalHeuristic_spec_witness :
  @BfsHeuristic.GetGoalHeuristic example_library example_heuristic_goal 9
    = (0, example_heuristic_goal) /\
  @BfsHeuristic.GetGoalHeuristic example_library example_heuristic_goal 5
    = (@BfsHeuristic.getBfsCostToGoal example_library example_heuristic_goal
         (BfsHeuristic.m_bfs example_heuristic_goal) 0 0 0, example_heuristic_goal).
Proof.
  split.
  - exact (proj1 (@GetGoalHeuristic_spec example_library example_heuristic_goal 9) eq_refl).
  - exact (proj2 (@GetGoalHeuristic_spec example_library example_heuristic_goal 5)
             0 0 0 eq_refl).
Defined.

(** C6, witness: state 0 is the goal state, state 3 is not. *)
Lemma GetFromToHeuristic_spec_witness :
  @BfsHeuristic.GetFromToHeuristic example_library example_heuristic_goal 5 0
    = @BfsHeuristic.GetGoalHeuristic example_library example_heuristic_goal 5 /\
  @BfsHeuristic.GetFromToHeuristic example_library example_heuristic_goal 5 3
    = (0, example_heuristic_goal).
Proof.
  split.
  - exact (proj1 (@GetFromToHeuristic_spec example_library example_heuristic_goal 5 0) eq_refl).
  - exact (proj2 (@GetFromToHeuristic_spec example_library example_heuristic_goal 5 3) eq_refl).
Defined.

(** * Properties of the visualisations and of the planner manager *)

(** ** The scan of the grid *)

Lemma fold_left_flat_map {A B C : Type} (f : A -> B -> A) (g : C -> list B) l : forall a,
  fold_left f (flat_map g l) a = fold_left (fun a k => fold_left f (g k) a) l a.
Proof.
  induction l as [|k l IH]; intros a; simpl; [reflexivity|].
  by rewrite fold_left_app, IH.
Qed.

Lemma fold_left_map_list {A B C : Type} (f : A -> B -> A) (g : C -> B) l : forall a,
  fold_left f (map g l) a = fold_left (fun a k => f a (g k)) l a.
Proof. induction l as [|k l IH]; intros a; simpl; auto. Qed.

Lemma fold_left_pointwise {A B : Type} (f g : A -> B -> A) l :
  (forall a k, f a k = g a k) -> forall a, fold_left f l a = fold_left g l a.
Proof.
  intros E. induction l as [|k l IH]; intros a; simpl; [reflexivity|].
  by rewrite E, IH.
Qed.

(** The three nested loops visit the cells in the order of [scan_cells]. *)
Lemma nested_loops_scan {A : Type} (F : A -> cell -> A) (dimX dimY dimZ : Z) (a : A) :
  fold_left (fun a z =>
    fold_left (fun a y =>
      fold_left (fun a x => F a (x, y, z)) (seqZ 0 dimX) a)
      (seqZ 0 dimY) a)
    (seqZ 0 dimZ) a
  = fold_left F (scan_cells dimX dimY dimZ) a.
Proof.
  unfold scan_cells. rewrite fold_left_flat_map.
  apply fold_left_pointwise. intros a' z. rewrite fold_left_flat_map.
  apply fold_left_pointwise. intros a'' y. by rewrite fold_left_map_list.
Qed.

Lemma elem_of_scan_cells dimX dimY dimZ x y z :
  In (x, y, z) (scan_cells dimX dimY dimZ) <->
  0 <= x < dimX /\ 0 <= y < dimY /\ 0 <= z < dimZ.
Proof.
  unfold scan_cells. rewrite in_flat_map. split.
  - intros (z' & Hz%list_elem_of_In%elem_of_seqZ & Hin).
    apply in_flat_map in Hin as (y' & Hy%list_elem_of_In%elem_of_seqZ & Hin).
    apply in_map_iff in Hin as (x' & [= <- <- <-] & Hx%list_elem_of_In%elem_of_seqZ).
    lia.
  - intros (Hx & Hy & Hz). exists z. split; [apply list_elem_of_In, elem_of_seqZ; lia|].
    apply in_flat_map. exists y. split; [apply list_elem_of_In, elem_of_seqZ; lia|].
    apply in_map_iff. exists x. split; [reflexivity|].
    apply list_elem_of_In, elem_of_seqZ. lia.
Qed.

Lemma length_flat_map_const {A B : Type} (g : A -> list B) (n : nat) l :
  (forall k, In k l -> length (g k) = n) -> length (flat_map g l) = (length l * n)%nat.
Proof.
  induction l as [|k l IH]; intros Hn; simpl; [reflexivity|].
  rewrite length_app, IH.
  - rewrite (Hn k) by (by left). lia.
  - intros k' Hk'. apply Hn. by right.
Qed.

Lemma length_scan_cells dimX dimY dimZ :
  length (scan_cells dimX dimY dimZ)
  = (Z.to_nat dimZ * (Z.to_nat dimY * Z.to_nat dimX))%nat.
Proof.
  unfold scan_cells.
  rewrite (length_flat_map_const _ (Z.to_nat dimY * Z.to_nat dimX)).
  - by rewrite length_seqZ.
  - intros z _. rewrite (length_flat_map_const _ (Z.to_nat dimX)).
    + by rewrite length_seqZ.
    + intros y _. by rewrite length_map, length_seqZ.
Qed.

Lemma NoDup_flat_map {A B : Type} (g : A -> list B) l :
  List.NoDup l -> (forall k, In k l -> List.NoDup (g k)) ->
  (forall k k' b, In b (g k) -> In b (g k') -> k = k') ->
  List.NoDup (flat_map g l).
Proof.
  intros Hl Hg Hdisj. induction Hl as [|k l Hk Hl IH]; simpl; [constructor|].
  apply NoDup_ListNoDup, NoDup_app. split; [apply NoDup_ListNoDup, Hg; by left|]. split.
  - intros b Hb%list_elem_of_In Hb'%list_elem_of_In.
    apply in_flat_map in Hb' as (k' & Hk' & Hb').
    rewrite (Hdisj k k' b Hb Hb') in Hk. contradiction.
  - apply NoDup_ListNoDup, IH. intros; apply Hg; by right.
Qed.

Lemma NoDup_scan_cells dimX dimY dimZ : List.NoDup (scan_cells dimX dimY dimZ).
Proof.
  unfold scan_cells. apply NoDup_flat_map.
  - apply NoDup_ListNoDup, NoDup_seqZ.
  - intros z _. apply NoDup_flat_map.
    + apply NoDup_ListNoDup, NoDup_seqZ.
    + intros y _. apply NoDup_ListNoDup, NoDup_fmap_2; [|apply NoDup_seqZ].
      intros x x' [= ->]. reflexivity.
    + intros y y' [[x'' y''] z''] (? & [= _ <- _] & _)%in_map_iff (? & [= _ <- _] & _)%in_map_iff.
      reflexivity.
  - intros z z' [[x'' y''] z''] (? & _ & (? & [= _ _ <-] & _)%in_map_iff)%in_flat_map
                                (? & _ & (? & [= _ _ <-] & _)%in_map_iff)%in_flat_map.
    reflexivity.
Qed.

Lemma fold_left_push {A B : Type} (p : A -> bool) (g : A -> B) l : forall acc,
  fold_left (fun acc c => if p c then acc ++ [g c] else acc) l acc
  = acc ++ map g (List.filter p l).
Proof.
  induction l as [|c l IH]; intros acc; simpl.
  - by rewrite app_nil_r.
  - rewrite IH. destruct (p c); simpl; [|reflexivity].
    by rewrite <- app_assoc.
Qed.

(** ** The visualisations *)

Section VizFacts.
Context `{BFS_3D.Library}.
Variable gridToWorld : Z -> Z -> Z -> Point.
Import BfsHeuristic.

Lemma fold_left_push_indexed {A B : Type} (p : A -> bool) (mk : nat -> A -> B) l :
  forall acc,
  fold_left (fun acc c => if p c then acc ++ [mk (length acc) c] else acc) l acc
  = acc ++ imap (fun i => mk (length acc + i)%nat) (List.filter p l).
Proof.
  induction l as [|c l IH]; intros acc; simpl.
  - by rewrite app_nil_r.
  - rewrite IH. destruct (p c); simpl; [|reflexivity].
    rewrite <- app_assoc. simpl. rewrite Nat.add_0_r. do 2 f_equal.
    apply imap_ext. intros i x _. simpl. rewrite length_app. simpl. f_equal. lia.
Qed.

Lemma getWallsVisualization_pnts_scan h dimX dimY dimZ :
  OccupancyGrid.getGridSize (m_grid h) = (dimX, dimY, dimZ) ->
  Visualization.getWallsVisualization_pnts gridToWorld h
  = map (fun '(x, y, z) => gridToWorld x y z)
        (List.filter (cell_is_wall (m_bfs h)) (scan_cells dimX dimY dimZ)).
Proof.
  intros Hg. unfold Visualization.getWallsVisualization_pnts. rewrite Hg.
  rewrite (nested_loops_scan
             (fun pnts '(x, y, z) => Visualization.walls_cell gridToWorld h z y pnts x)).
  rewrite <- (app_nil_l (map _ _)).
  rewrite <- (fold_left_push (cell_is_wall (m_bfs h)) (fun '(x, y, z) => gridToWorld x y z)).
  apply fold_left_pointwise. intros pnts [[x y] z]. reflexivity.
Qed.

Lemma getValuesVisualization_scan h dimX dimY dimZ :
  OccupancyGrid.getGridSize (m_grid h) = (dimX, dimY, dimZ) ->
  Visualization.getValuesVisualization gridToWorld h
  = imap (value_marker gridToWorld (m_bfs h))
         (List.filter (cell_has_value (m_bfs h)) (scan_cells dimX dimY dimZ)).
Proof.
  intros Hg. unfold Visualization.getValuesVisualization. rewrite Hg.
  rewrite (nested_loops_scan
             (fun ma '(x, y, z) => Visualization.values_cell gridToWorld h z y ma x)).
  etransitivity;
    [|exact (fold_left_push_indexed (cell_has_value (m_bfs h))
               (value_marker gridToWorld (m_bfs h)) (scan_cells dimX dimY dimZ) [])].
  apply fold_left_pointwise. intros ma [[x y] z].
  unfold Visualization.values_cell, cell_has_value, value_marker.
  destruct (_ || _); reflexivity.
Qed.
End VizFacts.

Section VizFacts2.
Context `{BFS_3D.Library}.
Variable gridToWorld : Z -> Z -> Z -> Point.
Import BfsHeuristic.

Lemma filter_nil_all_false {A : Type} (p : A -> bool) l :
  (forall c, In c l -> p c = false) -> List.filter p l = [].
Proof.
  induction l as [|c l IH]; intros Hp; simpl; [reflexivity|].
  rewrite (Hp c) by (by left). apply IH. intros; apply Hp; by right.
Qed.

Lemma sync_loops_scan h xc yc zc :
  OccupancyGrid.getGridSize (m_grid h) = (xc, yc, zc) ->
  sync_loops h
  = fold_left (fun st '(x, y, z) => sync_cell h z y st x) (scan_cells xc yc zc)
              (BFS_3D.new xc yc zc, 0).
Proof.
  intros Hg. unfold sync_loops. rewrite Hg.
  exact (nested_loops_scan (fun st '(x, y, z) => sync_cell h z y st x) xc yc zc _).
Qed.

Lemma sync_cells_count h l : forall st,
  snd (fold_left (fun st '(x, y, z) => sync_cell h z y st x) l st)
  = snd st + Z.of_nat (length (List.filter (fun '(x, y, z) => too_close h x y z) l)).
Proof.
  induction l as [|[[x y] z] l IH]; intros st; simpl; [lia|].
  rewrite IH. unfold sync_cell. destruct (too_close h x y z); simpl; lia.
Qed.

Lemma cell_is_wall_synced h xc yc zc c :
  OccupancyGrid.getGridSize (m_grid h) = (xc, yc, zc) ->
  In c (scan_cells xc yc zc) ->
  cell_is_wall (m_bfs (syncGridAndBfs h)) c = (let '(x, y, z) := c in too_close h x y z).
Proof.
  intros Hg. destruct c as [[x y] z]. intros (Hx & Hy & Hz)%elem_of_scan_cells.
  unfold cell_is_wall, BFS_3D.isWall.
  rewrite (syncGridAndBfs_getDistance h xc yc zc) by assumption.
  destruct (too_close h x y z); [apply Z.eqb_refl|].
  apply Z.eqb_neq. intros E. by apply BFS_3D.sentinels_distinct.
Qed.

Lemma cell_has_value_synced h xc yc zc c :
  OccupancyGrid.getGridSize (m_grid h) = (xc, yc, zc) ->
  In c (scan_cells xc yc zc) ->
  cell_has_value (m_bfs (syncGridAndBfs h)) c = false.
Proof.
  intros Hg. destruct c as [[x y] z]. intros (Hx & Hy & Hz)%elem_of_scan_cells.
  unfold cell_has_value, BFS_3D.isWall, BFS_3D.isUndiscovered.
  rewrite (syncGridAndBfs_getDistance h xc yc zc) by assumption.
  destruct (too_close h x y z); rewrite Z.eqb_refl; [reflexivity|].
  by rewrite orb_true_r.
Qed.

(** X1: the points of [getWallsVisualization] are the world positions
    of the wall cells of the grid, one point for each wall cell within
    the size of the grid, in the order of the scan, and nothing
    else. *)
Theorem getWallsVisualization_pnts_spec (h : t) (dimX dimY dimZ : Z) :
  OccupancyGrid.getGridSize (m_grid h) = (dimX, dimY, dimZ) ->
  let cells := List.filter (cell_is_wall (m_bfs h)) (scan_cells dimX dimY dimZ) in
  Visualization.getWallsVisualization_pnts gridToWorld h
    = map (fun '(x, y, z) => gridToWorld x y z) cells /\
  List.NoDup cells /\
  forall x y z,
    In (x, y, z) cells <->
    (0 <= x < dimX /\ 0 <= y < dimY /\ 0 <= z < dimZ) /\
    BFS_3D.isWall (m_bfs h) x y z = true.
Proof.
  intros Hg cells. split; [by apply getWallsVisualization_pnts_scan|]. split.
  - apply List.NoDup_filter, NoDup_scan_cells.
  - intros x y z. unfold cells. rewrite filter_In, elem_of_scan_cells. reflexivity.
Qed.

(** X2: the [wall_count] that [syncGridAndBfs] reports is the number of
    points [getWallsVisualization] then shows, and for a grid of
    non-negative dimensions it lies between 0 and [cell_count], the
    product of the dimensions. *)
Theorem syncGridAndBfs_wall_count (h : t) (xc yc zc : Z) :
  OccupancyGrid.getGridSize (m_grid h) = (xc, yc, zc) ->
  snd (sync_loops h)
    = Z.of_nat (length (Visualization.getWallsVisualization_pnts gridToWorld
                          (syncGridAndBfs h))) /\
  (0 <= xc -> 0 <= yc -> 0 <= zc -> 0 <= snd (sync_loops h) <= xc * yc * zc).
Proof.
  intros Hg.
  assert (E : snd (sync_loops h)
              = Z.of_nat (length (List.filter (fun '(x, y, z) => too_close h x y z)
                                              (scan_cells xc yc zc)))).
  { rewrite (sync_loops_scan h xc yc zc Hg), sync_cells_count. simpl. lia. }
  split.
  - rewrite E, (getWallsVisualization_pnts_scan gridToWorld _ xc yc zc) by exact Hg.
    rewrite length_map. do 2 f_equal. symmetry. apply filter_ext_in.
    intros c Hc. rewrite (cell_is_wall_synced h xc yc zc c Hg Hc).
    by destruct c as [[x y] z].
  - intros Hx Hy Hz. rewrite E.
    pose proof (List.filter_length_le (fun '(x, y, z) => too_close h x y z)
                  (scan_cells xc yc zc)) as Hle.
    rewrite length_scan_cells in Hle. split; [lia|].
    apply Nat2Z.inj_le in Hle. rewrite !Nat2Z.inj_mul, !Z2Nat.id in Hle by lia. lia.
Qed.

(** X3: [getValuesVisualization] makes one marker for each cell within
    the size of the grid that is neither a wall nor undiscovered, in
    the order of the scan, and none for any other cell; the identifier
    of a marker is its position in the array. *)
Theorem getValuesVisualization_spec (h : t) (dimX dimY dimZ : Z) :
  OccupancyGrid.getGridSize (m_grid h) = (dimX, dimY, dimZ) ->
  let cells := List.filter (cell_has_value (m_bfs h)) (scan_cells dimX dimY dimZ) in
  let ma := Visualization.getValuesVisualization gridToWorld h in
  ma = imap (value_marker gridToWorld (m_bfs h)) cells /\
  (forall i m, ma !! i = Some m -> marker_id m = Z.of_nat i) /\
  List.NoDup cells /\
  forall x y z,
    In (x, y, z) cells <->
    (0 <= x < dimX /\ 0 <= y < dimY /\ 0 <= z < dimZ) /\
    BFS_3D.isWall (m_bfs h) x y z = false /\
    BFS_3D.isUndiscovered (m_bfs h) x y z = false.
Proof.
  intros Hg cells ma.
  assert (E : ma = imap (value_marker gridToWorld (m_bfs h)) cells)
    by (by apply getValuesVisualization_scan).
  split; [exact E|]. split; [|split].
  - intros i m. rewrite E, list_lookup_imap.
    destruct (cells !! i) as [[[x y] z]|]; simpl; [|discriminate].
    intros [= <-]. reflexivity.
  - apply List.NoDup_filter, NoDup_scan_cells.
  - intros x y z. unfold cells. rewrite filter_In, elem_of_scan_cells.
    unfold cell_has_value. rewrite negb_true_iff, orb_false_iff. reflexivity.
Qed.

(** X4: right after [syncGridAndBfs], hence right after construction,
    no cell has a value to show: every cell of the grid is a wall or
    undiscovered, whatever goal was set before. *)
Theorem getValuesVisualization_after_sync (h : t) :
  Visualization.getValuesVisualization gridToWorld (syncGridAndBfs h) = [] /\
  forall env grid params,
    Visualization.getValuesVisualization gridToWorld (make env grid params) = [].
Proof.
  assert (E : forall h', Visualization.getValuesVisualization gridToWorld (syncGridAndBfs h') = []).
  { intros h'. destruct (OccupancyGrid.getGridSize (m_grid h')) as [[xc yc] zc] eqn:Hg.
    rewrite (getValuesVisualization_scan gridToWorld _ xc yc zc) by exact Hg.
    rewrite filter_nil_all_false; [reflexivity|].
    intros c Hc. by apply (cell_has_value_synced h' xc yc zc). }
  split; [apply E|]. intros env grid params. apply E.
Qed.

(** X5: on a heuristic that was just synchronised with its grid,
    [setGoal] succeeds exactly for the cells within the size of the
    grid, and a failed call leaves the heuristic as it was. *)
Theorem setGoal_after_sync (h : t) (xc yc zc x y z : Z) :
  OccupancyGrid.getGridSize (m_grid h) = (xc, yc, zc) ->
  (fst (setGoal (syncGridAndBfs h) x y z) = true <->
   0 <= x < xc /\ 0 <= y < yc /\ 0 <= z < zc) /\
  (fst (setGoal (syncGridAndBfs h) x y z) = false ->
   setGoal (syncGridAndBfs h) x y z = (false, syncGridAndBfs h)).
Proof.
  intros Hg. destruct (sync_loops_marked h xc yc zc Hg) as (Hd & _ & _).
  assert (Hb : BFS_3D.inBounds (m_bfs (syncGridAndBfs h)) x y z = true <->
               0 <= x < xc /\ 0 <= y < yc /\ 0 <= z < zc).
  { rewrite inBounds_spec. simpl. injection Hd as -> -> ->. reflexivity. }
  unfold setGoal. destruct (BFS_3D.inBounds (m_bfs (syncGridAndBfs h)) x y z); simpl.
  - split; [|discriminate]. split; [intros _; by apply Hb|reflexivity].
  - split; [|reflexivity]. split; [discriminate|]. intros Hr. by apply Hb.
Qed.

(** X6: before a goal is set, the cost of a cell of the grid is
    [INT_MAX] when its clearance is at most the radius, and the
    product of [cost_per_cell_] and the [UNDISCOVERED] sentinel
    otherwise. *)
Theorem getBfsCostToGoal_before_goal (h : t) (xc yc zc x y z : Z) :
  OccupancyGrid.getGridSize (m_grid h) = (xc, yc, zc) ->
  0 <= x < xc -> 0 <= y < yc -> 0 <= z < zc ->
  getBfsCostToGoal (syncGridAndBfs h) (m_bfs (syncGridAndBfs h)) x y z
  = if PrimFloat.leb (OccupancyGrid.getDistance (m_grid h) x y z)
                     (planning_link_sphere_radius_ (m_params h))
    then INT_MAX
    else int_mul (cost_per_cell_ (m_params h)) BFS_3D.UNDISCOVERED.
Proof.
  intros Hg Hx Hy Hz.
  destruct (sync_loops_marked h xc yc zc Hg) as (Hd & _ & _).
  pose proof (syncGridAndBfs_getDistance h xc yc zc x y z Hg Hx Hy Hz) as E.
  fold (too_close h x y z). destruct (too_close h x y z).
  - by apply getBfsCostToGoal_wall.
  - rewrite getBfsCostToGoal_scaled.
    + by rewrite E.
    + apply inBounds_spec. simpl. injection Hd as -> -> ->. lia.
    + rewrite E. intros E'. by apply BFS_3D.sentinels_distinct.
Qed.
End VizFacts2.

(** ** The visualizer *)

Section VisualizerFacts.
Import SBPLPlannerManager.

(** X7: the destructor of a manager unsets the global visualizer only
    when it is the one this manager registered: a manager that is
    destroyed right after its construction leaves none, a visualizer
    of another manager is left in place, also when that manager was
    constructed after this one. *)
Theorem destruct_manager_own_visualizer (this other : Z) (global : Visualizer) :
  destruct_manager this (construct_manager this global) = None /\
  (global <> Some this -> destruct_manager this global = global) /\
  (this <> other ->
   destruct_manager this (construct_manager other (construct_manager this global))
     = Some other).
Proof.
  unfold destruct_manager, construct_manager. split; [|split].
  - by rewrite bool_decide_eq_true_2.
  - intros Hne. by rewrite bool_decide_eq_false_2.
  - intros Hne. rewrite bool_decide_eq_false_2; [reflexivity|]. congruence.
Qed.

End VisualizerFacts.

(** ** The screening of requests and the cache of models *)

Section ManagerFacts.
Context `{DoubleFormat} `{Collaborators}.
Import SBPLPlannerManager.

Lemma vector_empty_spec {A : Type} (v : list A) : vector_empty v = true <-> v = [].
Proof. destruct v; simpl; split; congruence. Qed.

Lemma length_one {A : Type} (v : list A) :
  (length v =? 1)%nat = true <-> exists a, v = [a].
Proof.
  rewrite Nat.eqb_eq. destruct v as [|a [|b v]]; simpl; split;
    try discriminate; try (intros [? ?]; discriminate); eauto.
Qed.

Lemma goal_unsupported_spec (c : Constraints) :
  goal_unsupported c = false <->
  joint_constraints c = [] /\ visibility_constraints c = [] /\
  (exists p, position_constraints c = [p]) /\
  (exists o, orientation_constraints c = [o]).
Proof.
  unfold goal_unsupported. rewrite <- !vector_empty_spec, <- !length_one.
  destruct (vector_empty (joint_constraints c)),
           (vector_empty (visibility_constraints c)),
           (length (position_constraints c) =? 1)%nat,
           (length (orientation_constraints c) =? 1)%nat; simpl; intuition congruence.
Qed.

Lemma canServiceRequest_configured (mgr : t) (req : MotionPlanRequest) :
  canServiceRequest mgr req = true ->
  is_Some (config_settings_ mgr !! group_name req).
Proof.
  unfold canServiceRequest.
  destruct (PrimFloat.ltb (allowed_planning_time req) 0); [discriminate|].
  destruct (config_settings_ mgr !! group_name req); [eauto|discriminate].
Qed.

(** X8: [canServiceRequest] accepts a request exactly when its planning
    time is not below zero, its group has a planner configuration, its
    planner is one of the planning algorithms, it has no goal or one
    goal with exactly one position and one orientation constraint and
    no joint or visibility constraint, it has no path and no
    trajectory constraints, its workspace has a frame and no corner of
    the workspace is inverted. *)
Theorem canServiceRequest_spec (mgr : t) (req : MotionPlanRequest) :
  canServiceRequest mgr req = true <->
  PrimFloat.ltb (allowed_planning_time req) 0%float = false /\
  is_Some (config_settings_ mgr !! group_name req) /\
  In (planner_id req) (getPlanningAlgorithms []) /\
  (goal_constraints req = [] \/
   exists c p o, goal_constraints req = [c] /\
     joint_constraints c = [] /\ visibility_constraints c = [] /\
     position_constraints c = [p] /\ orientation_constraints c = [o]) /\
  (position_constraints (path_constraints req) = [] /\
   orientation_constraints (path_constraints req) = [] /\
   joint_constraints (path_constraints req) = [] /\
   visibility_constraints (path_constraints req) = []) /\
  trajectory_constraints req = [] /\
  frame_id (workspace_parameters req) <> "" /\
  PrimFloat.ltb (v_x (max_corner (workspace_parameters req)))
                (v_x (min_corner (workspace_parameters req))) = false /\
  PrimFloat.ltb (v_y (max_corner (workspace_parameters req)))
                (v_y (min_corner (workspace_parameters req))) = false /\
  PrimFloat.ltb (v_z (max_corner (workspace_parameters req)))
                (v_z (min_corner (workspace_parameters req))) = false.
Proof.
  unfold canServiceRequest.
  destruct (PrimFloat.ltb (allowed_planning_time req) 0) eqn:Ht;
    [split; [discriminate|intros (? & _); discriminate]|].
  destruct (config_settings_ mgr !! group_name req) as [pcs|] eqn:Hc;
    [|split; [discriminate|intros (_ & [? ?] & _); discriminate]].
  destruct (existsb (String.eqb (planner_id req)) (getPlanningAlgorithms [])) eqn:Ha; simpl.
  2:{ split; [discriminate|]. intros (_ & _ & Hin & _). exfalso.
      apply not_true_iff_false in Ha. apply Ha, existsb_exists.
      exists (planner_id req). split; [exact Hin|apply String.eqb_refl]. }
  apply existsb_exists in Ha as (a & Hin & ->%String.eqb_eq).
  assert (Hgoals : ((1 <? length (goal_constraints req))%nat = false /\
                    existsb goal_unsupported (goal_constraints req) = false) <->
                   (goal_constraints req = [] \/
                    exists c p o, goal_constraints req = [c] /\
                      joint_constraints c = [] /\ visibility_constraints c = [] /\
                      position_constraints c = [p] /\ orientation_constraints c = [o])).
  { destruct (goal_constraints req) as [|c [|c' gs]]; simpl.
    - split; [by left|done].
    - rewrite orb_false_r, goal_unsupported_spec. split.
      + intros (_ & Hj & Hv & [p Hp] & [o Ho]). right. by exists c, p, o.
      + intros [?|(c0 & p & o & [= <-] & Hj & Hv & Hp & Ho)]; [discriminate|].
        split; [reflexivity|]. eauto 10.
    - split; [intros [? _]; discriminate|].
      intros [?|(c0 & p & o & ? & _)]; discriminate. }
  destruct (1 <? length (goal_constraints req))%nat eqn:Hn.
  { split; [discriminate|]. intros (_ & _ & _ & Hg & _).
    apply Hgoals in Hg as [? _]. discriminate. }
  destruct (existsb goal_unsupported (goal_constraints req)) eqn:Hu.
  { split; [discriminate|]. intros (_ & _ & _ & Hg & _).
    apply Hgoals in Hg as [_ ?]. discriminate. }
  assert (Hg : goal_constraints req = [] \/
               exists c p o, goal_constraints req = [c] /\
                 joint_constraints c = [] /\ visibility_constraints c = [] /\
                 position_constraints c = [p] /\ orientation_constraints c = [o])
    by (by apply Hgoals).
  rewrite <- !vector_empty_spec.
  destruct (vector_empty (position_constraints (path_constraints req))),
           (vector_empty (orientation_constraints (path_constraints req))),
           (vector_empty (joint_constraints (path_constraints req))),
           (vector_empty (visibility_constraints (path_constraints req))); simpl;
    try (split; [discriminate|intros (_ & _ & _ & _ & (? & ? & ? & ?) & _); discriminate]).
  destruct (vector_empty (trajectory_constraints req)); simpl;
    [|split; [discriminate|intros (_ & _ & _ & _ & _ & ? & _); discriminate]].
  destruct (String.eqb_spec (frame_id (workspace_parameters req)) "") as [Hf|Hf].
  { split; [discriminate|]. intros (_ & _ & _ & _ & _ & _ & Hf' & _). contradiction. }
  destruct (PrimFloat.ltb (v_x _) (v_x _)), (PrimFloat.ltb (v_y _) (v_y _)),
           (PrimFloat.ltb (v_z _) (v_z _)); simpl;
    try (split; [discriminate|intros (_ & _ & _ & _ & _ & _ & _ & ? & ? & ?); discriminate]).
  split; [|reflexivity]. intros _. repeat split; eauto.
  destruct Hg as [Hg|Hg]; [left; by apply vector_empty_spec|by right].
Qed.

(** X9: [getModelForGroup] touches nothing but the entry of its group
    in the cache of models: a failed initialisation leaves the manager
    as it was, a successful one stores the model it returns, an entry
    that exists is returned without a change, and asking again after a
    success returns the same model. *)
Theorem getModelForGroup_spec (mgr : t) (group_name : string) :
  let result := fst (getModelForGroup mgr group_name) in
  let mgr' := snd (getModelForGroup mgr group_name) in
  m_robot_model mgr' = m_robot_model mgr /\
  m_ns mgr' = m_ns mgr /\
  config_settings_ mgr' = config_settings_ mgr /\
  m_sbpl_models mgr' !! group_name = result /\
  (forall other, other <> group_name ->
     m_sbpl_models mgr' !! other = m_sbpl_models mgr !! other) /\
  (result = None -> mgr' = mgr) /\
  (is_Some (m_sbpl_models mgr !! group_name) ->
     result = m_sbpl_models mgr !! group_name /\ mgr' = mgr) /\
  (is_Some result -> getModelForGroup mgr' group_name = (result, mgr')).
Proof.
  unfold getModelForGroup at 1 2.
  destruct (m_sbpl_models mgr !! group_name) as [model|] eqn:Hm.
  - cbn [fst snd]. repeat split; auto. intros _. unfold getModelForGroup. by rewrite Hm.
  - destruct (MoveItRobotModel_init MoveItRobotModel_new (m_robot_model mgr) group_name)
      as [ok sbpl_model] eqn:Hi.
    destruct ok; cbn [negb fst snd m_robot_model m_ns config_settings_ m_sbpl_models].
    + split; [reflexivity|]. split; [reflexivity|]. split; [reflexivity|].
      split; [by rewrite lookup_insert_eq|].
      split; [intros other Hne; by rewrite !lookup_insert_ne|].
      split; [discriminate|]. split; [intros [? ?]; discriminate|].
      intros _. unfold getModelForGroup.
      cbn [m_sbpl_models]. by rewrite lookup_insert_eq.
    + assert (E : delete group_name
                    (<[group_name := sbpl_model]>
                       (<[group_name := MoveItRobotModel_new]> (m_sbpl_models mgr)))
                  = m_sbpl_models mgr).
      { rewrite insert_insert_eq. by apply delete_insert_id. }
      rewrite E.
      split; [reflexivity|]. split; [reflexivity|]. split; [reflexivity|].
      split; [exact Hm|]. split; [reflexivity|].
      split; [intros _; by destruct mgr|]. split; [intros [? ?]; discriminate|].
      intros [? ?]; discriminate.
Qed.
End ManagerFacts.

(** ** The conversion of parameters to text *)

Lemma string_app_assoc (a b c : string) : (a +:+ b) +:+ c = a +:+ (b +:+ c).
Proof.
  induction a as [|x a IH]; [reflexivity|].
  change (String x ((a +:+ b) +:+ c) = String x (a +:+ (b +:+ c))). by rewrite IH.
Qed.

Lemma string_app_nil_r (a : string) : a +:+ "" = a.
Proof.
  induction a as [|x a IH]; [reflexivity|].
  change (String x (a +:+ "") = String x a). by rewrite IH.
Qed.

Section XmlFacts.
Context `{DoubleFormat}.


Lemma array_loop_streams a : forall strs k text,
  Forall2 streams a strs ->
  fold_left (array_step (k + Z.of_nat (length a)))
            (zip (seqZ k (Z.of_nat (length a))) a) (Some text)
  = Some (text +:+ String.concat " " strs).
Proof.
  induction a as [|v a IH]; intros strs k text Hs.
  - apply Forall2_nil_inv_l in Hs as ->. simpl. by rewrite string_app_nil_r.
  - apply Forall2_cons_inv_l in Hs as (s & strs' & Hv & Hs & ->).
    rewrite seqZ_cons by (simpl; lia). cbn [zip zip_with fold_left array_step fst snd].
    rewrite Hv.
    replace (k + Z.of_nat (length (v :: a))) with (Z.succ k + Z.of_nat (length a))
      by (simpl; lia).
    replace (Z.pred (Z.of_nat (length (v :: a)))) with (Z.of_nat (length a))
      by (simpl; lia).
    destruct a as [|v' a'].
    + apply Forall2_nil_inv_l in Hs as ->.
      match goal with |- context [?x =? ?y] => destruct (Z.eqb_spec x y) as [He|He] end;
        [reflexivity|simpl in He; lia].
    + match goal with |- context [?x =? ?y] => destruct (Z.eqb_spec x y) as [He|He] end;
        [simpl in He; lia|].
      cbn [negb]. rewrite (IH strs' (Z.succ k) _ Hs).
      destruct strs' as [|s' strs'']; [by apply Forall2_nil_inv_r in Hs|].
      simpl. by rewrite !string_app_assoc.
Qed.

Lemma array_loop_fails n l : fold_left (array_step n) l None = None.
Proof. induction l; simpl; auto. Qed.

Lemma array_loop_unsupported a : forall k n text,
  Exists (fun v => stream_member v = None) a ->
  fold_left (array_step n) (zip (seqZ k (Z.of_nat (length a))) a) (Some text) = None.
Proof.
  induction a as [|v a IH]; intros k n text Hex; [by apply Exists_nil in Hex|].
  rewrite seqZ_cons by (simpl; lia). cbn [zip zip_with fold_left array_step fst snd].
  replace (Z.pred (Z.of_nat (length (v :: a)))) with (Z.of_nat (length a))
    by (simpl; lia).
  destruct (stream_member v) as [s|] eqn:Hv; [|apply array_loop_fails].
  apply Exists_cons in Hex as [Hex|Hex]; [congruence|]. by apply IH.
Qed.

Lemma struct_loop_streams m : forall strs k text,
  Forall2 (fun e s => streams (snd e) s) m strs ->
  fold_left (struct_step (k + Z.of_nat (length m)))
            (zip (seqZ k (Z.of_nat (length m))) m) (Some text)
  = Some (text +:+ String.concat " " (zip_with member_text m strs)).
Proof.
  induction m as [|e m IH]; intros strs k text Hs.
  - apply Forall2_nil_inv_l in Hs as ->. simpl. by rewrite string_app_nil_r.
  - apply Forall2_cons_inv_l in Hs as (s & strs' & Hv & Hs & ->).
    rewrite seqZ_cons by (simpl; lia). cbn [zip zip_with fold_left struct_step fst snd].
    rewrite Hv.
    replace (k + Z.of_nat (length (e :: m))) with (Z.succ k + Z.of_nat (length m))
      by (simpl; lia).
    replace (Z.pred (Z.of_nat (length (e :: m)))) with (Z.of_nat (length m))
      by (simpl; lia).
    destruct m as [|e' m'].
    + apply Forall2_nil_inv_l in Hs as ->.
      match goal with |- context [?x =? ?y] => destruct (Z.eqb_spec x y) as [He|He] end;
        [reflexivity|simpl in He; lia].
    + match goal with |- context [?x =? ?y] => destruct (Z.eqb_spec x y) as [He|He] end;
        [simpl in He; lia|].
      cbn [negb]. rewrite (IH strs' (Z.succ k) _ Hs).
      destruct strs' as [|s' strs'']; [by apply Forall2_nil_inv_r in Hs|].
      unfold member_text. simpl. by rewrite !string_app_assoc.
Qed.

Lemma struct_loop_fails n l : fold_left (struct_step n) l None = None.
Proof. induction l; simpl; auto. Qed.

Lemma struct_loop_unsupported m : forall k n text,
  Exists (fun e => stream_member (snd e) = None) m ->
  fold_left (struct_step n) (zip (seqZ k (Z.of_nat (length m))) m) (Some text) = None.
Proof.
  induction m as [|e m IH]; intros k n text Hex; [by apply Exists_nil in Hex|].
  rewrite seqZ_cons by (simpl; lia). cbn [zip zip_with fold_left struct_step fst snd].
  replace (Z.pred (Z.of_nat (length (e :: m)))) with (Z.of_nat (length m))
    by (simpl; lia).
  destruct (stream_member (snd e)) as [s|] eqn:Hv; [|apply struct_loop_fails].
  apply Exists_cons in Hex as [Hex|Hex]; [congruence|]. by apply IH.
Qed.

Lemma streams_or_not {A : Type} (f : A -> XmlRpc.Value) (l : list A) :
  (exists strs, Forall2 (fun e s => streams (f e) s) l strs) \/
  Exists (fun e => stream_member (f e) = None) l.
Proof.
  induction l as [|v l [[strs Hs]|Hex]].
  - left. exists []. constructor.
  - destruct (stream_member (f v)) as [s|] eqn:Hv.
    + left. exists (s :: strs). by constructor.
    + right. by left.
  - right. by right.
Qed.

Lemma streams_supported {A : Type} (f : A -> XmlRpc.Value) (l : list A) strs :
  Forall2 (fun e s => streams (f e) s) l strs ->
  Exists (fun e => stream_member (f e) = None) l -> False.
Proof.
  induction 1 as [|e s l' strs' Hv Hs IH]; intros Hex; [by apply Exists_nil in Hex|].
  apply Exists_cons in Hex as [Hex|Hex]; [unfold streams in Hv; congruence|auto].
Qed.

(** X10: for an array whose members are booleans, integers, doubles or
    strings, [xmlToString] succeeds with the texts of the members
    separated by single blanks, a boolean as 1 or 0; for such a
    struct, with [name value] for each member.  There is no blank
    before the first or after the last member. *)
Theorem xmlToString_members (out : string) :
  (forall a strs, Forall2 streams a strs ->
     xmlToString (XmlRpc.Array a) out = (true, String.concat " " strs)) /\
  (forall m strs, Forall2 (fun e s => streams (snd e) s) m strs ->
     xmlToString (XmlRpc.Struct m) out
       = (true, String.concat " " (zip_with member_text m strs))).
Proof.
  split.
  - intros a strs Hs. unfold xmlToString, XmlRpc.size.
    pose proof (array_loop_streams a strs 0 "" Hs) as E.
    rewrite Z.add_0_l in E. by rewrite E.
  - intros m strs Hs. unfold xmlToString, XmlRpc.size.
    pose proof (struct_loop_streams m strs 0 "" Hs) as E.
    rewrite Z.add_0_l in E. by rewrite E.
Qed.

(** X11: [xmlToString] fails exactly for an invalid, date or binary
    value and for an array or struct with a member that is none of
    boolean, integer, double and string; when it fails, [out] keeps
    its content. *)
Theorem xmlToString_failure (value : XmlRpc.Value) (out : string) :
  (fst (xmlToString value out) = false -> snd (xmlToString value out) = out) /\
  (fst (xmlToString value out) = false <->
   match value with
   | XmlRpc.Invalid | XmlRpc.DateTime | XmlRpc.Base64 => True
   | XmlRpc.Array a => Exists (fun v => stream_member v = None) a
   | XmlRpc.Struct m => Exists (fun e => stream_member (snd e) = None) m
   | _ => False
   end).
Proof.
  destruct value as [|b|i|d|s| | |a|m]; cbn [xmlToString fst snd].
  1,6,7: by (split; [reflexivity|split; [intros _; exact I|reflexivity]]).
  1-4: by (split; [discriminate|split; [discriminate|contradiction]]).
  - unfold XmlRpc.size. destruct (streams_or_not (fun v => v) a) as [[strs Hs]|Hex].
    + pose proof (array_loop_streams a strs 0 "" Hs) as E.
      rewrite Z.add_0_l in E. rewrite E. cbn [fst snd].
      split; [discriminate|]. split; [discriminate|].
      intros Hex. exfalso. exact (streams_supported (fun v => v) a strs Hs Hex).
    + rewrite (array_loop_unsupported a 0 _ "" Hex). cbn [fst snd].
      split; [reflexivity|split; [intros _; exact Hex|reflexivity]].
  - unfold XmlRpc.size. destruct (streams_or_not snd m) as [[strs Hs]|Hex].
    +       pose proof (struct_loop_streams m strs 0 "" Hs) as E.
      rewrite Z.add_0_l in E. rewrite E. cbn [fst snd].
      split; [discriminate|]. split; [discriminate|].
      intros Hex. exfalso. exact (streams_supported snd m strs Hs Hex).
    + rewrite (struct_loop_unsupported m 0 _ "" Hex). cbn [fst snd].
      split; [reflexivity|split; [intros _; exact Hex|reflexivity]].
Qed.
End XmlFacts.

(** ** The planner settings *)

Section LoadFacts.
Context `{DoubleFormat} `{Collaborators}.
Import SBPLPlannerManager.

Lemma xmlToString_failed_out value out :
  fst (xmlToString value out) = false -> snd (xmlToString value out) = out.
Proof.
  destruct value as [|b|i|d|s| | |a|m]; cbn [xmlToString fst snd];
    try reflexivity; try discriminate.
  - destruct (fold_left _ _ _); [discriminate|reflexivity].
  - destruct (fold_left _ _ _); [discriminate|reflexivity].
Qed.

Lemma fold_settings_step_dom ms : forall acc,
  dom (fold_left settings_step ms acc) = dom acc ∪ list_to_set ms.*1.
Proof.
  induction ms as [|e ms IH]; intros acc; cbn [fold_left fmap list_fmap list_to_set foldr].
  - symmetry. apply (right_id_L ∅ (∪)).
  - rewrite IH. unfold settings_step. rewrite dom_insert_L.
    rewrite (comm_L (∪) {[e.1]} (dom acc)). by rewrite (assoc_L (∪)).
Qed.

Lemma fold_settings_step_lookup ms :
  NoDup ms.*1 ->
  forall k v, In (k, v) ms -> fold_left settings_step ms ∅ !! k = Some (setting_text v).
Proof.
  induction ms as [|e ms IH] using rev_ind; intros Hnd k v Hin; [destruct Hin|].
  rewrite fold_left_app. simpl. unfold settings_step at 1.
  rewrite fmap_app in Hnd. apply NoDup_app in Hnd as (Hnd & Hdisj & _).
  apply in_app_or in Hin as [Hin|[->|[]]].
  - rewrite lookup_insert_ne.
    + by apply IH.
    + intros Hk. apply (Hdisj k).
      * apply list_elem_of_fmap. exists (k, v). split; [reflexivity|by apply list_elem_of_In].
      * simpl. rewrite Hk. apply list_elem_of_here.
  - simpl. rewrite lookup_insert_eq. f_equal.
    assert (Hnone : fold_left settings_step ms ∅ !! k = None).
    { apply not_elem_of_dom. rewrite fold_settings_step_dom.
      intros [Hk|Hk]%elem_of_union;
        [rewrite dom_empty_L in Hk; by apply not_elem_of_empty in Hk|].
      apply elem_of_list_to_set in Hk. apply (Hdisj k Hk). simpl. apply list_elem_of_here. }
    rewrite Hnone. simpl. unfold setting_text.
    destruct (fst (xmlToString v "")) eqn:E; [reflexivity|].
    by apply xmlToString_failed_out.
Qed.

Lemma fold_configs_step_None members : fold_left configs_step members None = None.
Proof. induction members; simpl; auto. Qed.

Lemma fold_configs_step_Some members : forall acc configs,
  fold_left configs_step members (Some acc) = Some configs ->
  Forall (fun e => exists ms, snd e = XmlRpc.Struct ms) members /\
  dom configs = dom acc ∪ list_to_set members.*1.
Proof.
  induction members as [|e members IH]; intros acc configs Hf; simpl in *.
  - injection Hf as <-. split; [constructor|].
    symmetry. apply (right_id_L ∅ (∪)).
  - destruct (snd e) as [| | | | | | | |ms] eqn:He;
      try (rewrite fold_configs_step_None in Hf; discriminate).
    apply IH in Hf as [Hall Hdom]. split.
    + constructor; [by exists ms|exact Hall].
    + rewrite Hdom, dom_insert_L. cbn [fmap list_fmap list_to_set foldr].
      rewrite (comm_L (∪) {[e.1]} (dom acc)). by rewrite (assoc_L (∪)).
Qed.

Lemma fold_configs_step_lookup members :
  NoDup members.*1 ->
  forall configs, fold_left configs_step members (Some ∅) = Some configs ->
  forall name ms, In (name, XmlRpc.Struct ms) members ->
    configs !! name = Some (fold_left settings_step ms ∅).
Proof.
  induction members as [|e members IH] using rev_ind;
    intros Hnd configs Hf name ms Hin; [destruct Hin|].
  rewrite fold_left_app in Hf. simpl in Hf.
  destruct (fold_left configs_step members (Some ∅)) as [configs'|] eqn:Hprev;
    [|discriminate].
  simpl in Hf. destruct (snd e) as [| | | | | | | |ms'] eqn:He; try discriminate.
  injection Hf as <-.
  rewrite fmap_app in Hnd. apply NoDup_app in Hnd as (Hnd & Hdisj & _).
  apply in_app_or in Hin as [Hin|[->|[]]].
  - rewrite lookup_insert_ne; [by apply (IH Hnd)|].
    intros Hk. apply (Hdisj name).
    + apply list_elem_of_fmap. exists (name, XmlRpc.Struct ms).
      split; [reflexivity|by apply list_elem_of_In].
    + simpl. rewrite Hk. apply list_elem_of_here.
  - simpl in *. injection He as <-. by rewrite lookup_insert_eq.
Qed.

(** X12: [loadPlannerSettings] succeeds and leaves [out] alone when the
    namespace has no [planner_configs]; otherwise it succeeds only for
    a struct of structs, and [out] then holds exactly the names of
    that struct, each with the settings read from its members; when it
    fails, [out] keeps its content. *)
Theorem loadPlannerSettings_spec (mgr : t) (out : gmap string (gmap string string)) :
  let nh := node_handle (m_ns mgr) in
  (hasParam nh "planner_configs" = false -> loadPlannerSettings mgr out = (true, out)) /\
  (fst (loadPlannerSettings mgr out) = false -> snd (loadPlannerSettings mgr out) = out) /\
  (hasParam nh "planner_configs" = true ->
   fst (loadPlannerSettings mgr out) = true ->
   exists members,
     getParam nh "planner_configs" = Some (XmlRpc.Struct members) /\
     Forall (fun e => exists ms, snd e = XmlRpc.Struct ms) members /\
     dom (snd (loadPlannerSettings mgr out)) = list_to_set members.*1 /\
     (NoDup members.*1 ->
      forall name ms, In (name, XmlRpc.Struct ms) members ->
        snd (loadPlannerSettings mgr out) !! name = Some (fold_left settings_step ms ∅))).
Proof.
  intros nh. unfold loadPlannerSettings. fold nh.
  destruct (hasParam nh "planner_configs"); cbn [negb].
  2:{ split; [reflexivity|]. split; [discriminate|discriminate]. }
  split; [discriminate|].
  destruct (getParam nh "planner_configs") as [[| | | | | | | |members]|];
    try (split; [reflexivity|intros _; discriminate]).
  destruct (fold_left configs_step members (Some ∅)) as [configs|] eqn:Hf;
    [|split; [reflexivity|intros _; discriminate]].
  split; [discriminate|]. intros _ _. exists members. cbn [snd].
  destruct (fold_configs_step_Some members ∅ configs Hf) as [Hall Hdom].
  split; [reflexivity|]. split; [exact Hall|].
  split; [by rewrite Hdom, dom_empty_L, (left_id_L ∅ (∪))|].
  intros Hnd name ms Hin. by apply (fold_configs_step_lookup members Hnd).
Qed.

(** X13: the settings [loadPlannerSettings] reads from a planner
    configuration have exactly the names of its parameters; a
    parameter holds the text [xmlToString] gives, and the empty text
    when the conversion fails. *)
Theorem planner_settings_spec (ms : list (string * XmlRpc.Value)) :
  NoDup ms.*1 ->
  dom (fold_left settings_step ms ∅) = list_to_set ms.*1 /\
  forall k v, In (k, v) ms ->
    fold_left settings_step ms ∅ !! k
      = Some (if fst (xmlToString v "") then snd (xmlToString v "") else "").
Proof.
  intros Hnd. split.
  - by rewrite fold_settings_step_dom, dom_empty_L, (left_id_L ∅ (∪)).
  - intros k v Hin. by apply fold_settings_step_lookup.
Qed.
End LoadFacts.

(** ** The planner configurations *)

Section MappingFacts.
Context `{DoubleFormat} `{Collaborators}.
Import SBPLPlannerManager.

Lemma fold_planner_config_step_None psm g l :
  fold_left (planner_config_step psm g) l None = None.
Proof. induction l; simpl; auto. Qed.

Lemma fold_planner_config_step_entries nh groups psm g l : forall pcm pcm',
  In g groups -> hasParam nh g = true ->
  map_Forall (configuration_entry nh groups psm) pcm ->
  fold_left (planner_config_step psm g) l (Some pcm) = Some pcm' ->
  map_Forall (configuration_entry nh groups psm) pcm'.
Proof.
  induction l as [|v l IH]; intros pcm pcm' Hg Hp Hinv Hf; simpl in Hf.
  - by injection Hf as <-.
  - destruct v as [| | | |c| | | |];
      try (rewrite fold_planner_config_step_None in Hf; discriminate).
    destruct (psm !! c) as [settings|] eqn:Hc; [|by apply (IH pcm)].
    apply (IH _ _ Hg Hp) in Hf; [exact Hf|].
    apply map_Forall_insert_2; [|exact Hinv].
    split; [reflexivity|]. split; [exact Hg|]. split; [exact Hp|].
    right. by exists c.
Qed.

Lemma fold_known_param_step_false cfg l ks :
  fst (fold_left (known_param_step cfg) l (false, ks)) = false.
Proof. induction l; simpl; auto. Qed.

Lemma fold_known_param_step_dom cfg l : forall ks,
  fst (fold_left (known_param_step cfg) l (true, ks)) = true ->
  dom (snd (fold_left (known_param_step cfg) l (true, ks))) = dom ks ∪ list_to_set l.
Proof.
  induction l as [|p l IH]; intros ks Hf; cbn [fold_left list_to_set foldr] in *.
  - symmetry. apply (right_id_L ∅ (∪)).
  - unfold known_param_step at 2 in Hf. unfold known_param_step at 2.
    cbn [fst snd negb] in *.
    destruct (XmlRpc.hasMember cfg p); cbn [negb] in *.
    + rewrite (IH _ Hf), dom_insert_L.
      rewrite (comm_L (∪) {[p]} (dom ks)). by rewrite (assoc_L (∪)).
    + by rewrite fold_known_param_step_false in Hf.
Qed.

Lemma fold_group_step_None nh psm l : fold_left (group_step nh psm) l None = None.
Proof. induction l; simpl; auto. Qed.

Lemma group_step_entries nh groups psm g pcm pcm' :
  In g groups ->
  map_Forall (configuration_entry nh groups psm) pcm ->
  group_step nh psm (Some pcm) g = Some pcm' ->
  map_Forall (configuration_entry nh groups psm) pcm'.
Proof.
  intros Hg Hinv. unfold group_step.
  destruct (hasParam nh g) eqn:Hp; cbn [negb]; [|by intros [= <-]].
  destruct (getParam nh g) as [cfg|]; [|discriminate].
  destruct cfg as [| | | | | | | |members]; try discriminate.
  set (cfg := XmlRpc.Struct members).
  destruct (if XmlRpc.hasMember cfg "planner_configs" then _ else _) as [pcm1|] eqn:H1;
    [|discriminate].
  assert (Hinv1 : map_Forall (configuration_entry nh groups psm) pcm1).
  { destruct (XmlRpc.hasMember cfg "planner_configs"); [|by injection H1 as <-].
    destruct (XmlRpc.member cfg "planner_configs") as [| | | | | | |a|]; try discriminate.
    by apply (fold_planner_config_step_entries nh groups psm g a pcm). }
  destruct (fold_left (known_param_step cfg) known_group_param_names (true, ∅))
    as [found_all known_settings] eqn:Hk.
  destruct found_all; intros [= <-]; [|exact Hinv1].
  apply map_Forall_insert_2; [|exact Hinv1].
  split; [reflexivity|]. split; [exact Hg|]. split; [exact Hp|].
  left. split; [reflexivity|]. cbn [pcs_config].
  pose proof (fold_known_param_step_dom cfg known_group_param_names ∅) as Hd.
  rewrite Hk in Hd. cbn [fst snd] in Hd. rewrite Hd by reflexivity.
  by rewrite dom_empty_L, (left_id_L ∅ (∪)).
Qed.

Lemma fold_group_step_entries nh groups psm l : forall pcm pcm',
  (forall g, In g l -> In g groups) ->
  map_Forall (configuration_entry nh groups psm) pcm ->
  fold_left (group_step nh psm) l (Some pcm) = Some pcm' ->
  map_Forall (configuration_entry nh groups psm) pcm'.
Proof.
  induction l as [|g l IH]; intros pcm pcm' Hl Hinv Hf; cbn [fold_left] in Hf.
  - by injection Hf as <-.
  - destruct (group_step nh psm (Some pcm) g) as [pcm1|] eqn:Hs;
      [|rewrite fold_group_step_None in Hf; discriminate].
    apply (IH pcm1); [intros; apply Hl; by right| |exact Hf].
    apply (group_step_entries nh groups psm g pcm); [apply Hl; by left|exact Hinv|exact Hs].
Qed.

Lemma loadPlannerConfigurationMapping_cases (mgr : t) (model : RobotModel) :
  loadPlannerConfigurationMapping mgr model = (false, mgr) \/
  exists pcm,
    loadPlannerConfigurationMapping mgr model = (true, setPlannerConfigurations mgr pcm) /\
    map_Forall (configuration_entry (node_handle (m_ns mgr))
                  (getJointModelGroupNames model)
                  (snd (loadPlannerSettings mgr ∅))) pcm.
Proof.
  unfold loadPlannerConfigurationMapping.
  destruct (loadPlannerSettings mgr ∅) as [loaded psm] eqn:Hl.
  destruct loaded; cbn [negb]; [|by left].
  destruct (fold_left _ (getJointModelGroupNames model) (Some ∅)) as [pcm|] eqn:Hf;
    [|by left].
  right. exists pcm. split; [reflexivity|]. cbn [snd].
  apply (fold_group_step_entries _ _ _ _ ∅ pcm (fun g Hg => Hg)); [|exact Hf].
  apply map_Forall_empty.
Qed.

(** X14: when [loadPlannerConfigurationMapping] fails the manager is as
    it was; when it succeeds only the planner configurations change,
    and each is stored under its own name, belongs to a joint group of
    the model that has a parameter, and is either the configuration
    of the group, with exactly the known group parameters, or the
    configuration [group[config]] with the settings of that planner
    configuration. *)
Theorem loadPlannerConfigurationMapping_spec (mgr : t) (model : RobotModel) :
  let result := loadPlannerConfigurationMapping mgr model in
  (fst result = false -> snd result = mgr) /\
  (fst result = true ->
   m_robot_model (snd result) = m_robot_model mgr /\
   m_ns (snd result) = m_ns mgr /\
   m_sbpl_models (snd result) = m_sbpl_models mgr /\
   map_Forall (configuration_entry (node_handle (m_ns mgr))
                 (getJointModelGroupNames model)
                 (snd (loadPlannerSettings mgr ∅)))
              (config_settings_ (snd result))).
Proof.
  intros result. unfold result.
  destruct (loadPlannerConfigurationMapping_cases mgr model) as [->|(pcm & -> & Hinv)];
    cbn [fst snd].
  - split; [reflexivity|discriminate].
  - split; [discriminate|]. intros _.
    split; [reflexivity|]. split; [reflexivity|]. split; [reflexivity|exact Hinv].
Qed.
End MappingFacts.

Section MappingFacts2.
Context `{DoubleFormat} `{Collaborators}.
Import SBPLPlannerManager.

Lemma fold_known_param_step_found cfg l : forall ks,
  (forall p, In p l -> XmlRpc.hasMember cfg p = true) ->
  fst (fold_left (known_param_step cfg) l (true, ks)) = true.
Proof.
  induction l as [|p l IH]; intros ks Hall; cbn [fold_left]; [reflexivity|].
  unfold known_param_step at 2. cbn [fst snd negb].
  rewrite (Hall p) by (by left). cbn [negb]. apply IH. intros; apply Hall; by right.
Qed.

Lemma fold_planner_config_step_keeps psm g l : forall pcm pcm' name,
  fold_left (planner_config_step psm g) l (Some pcm) = Some pcm' ->
  is_Some (pcm !! name) -> is_Some (pcm' !! name).
Proof.
  induction l as [|v l IH]; intros pcm pcm' name Hf Hn; cbn [fold_left] in Hf.
  - by injection Hf as <-.
  - unfold planner_config_step at 2 in Hf.
    destruct v as [| | | |c| | | |];
      try (rewrite fold_planner_config_step_None in Hf; discriminate).
    destruct (psm !! c) as [settings|]; [|by apply (IH pcm)].
    apply (IH _ _ name) in Hf; [exact Hf|].
    rewrite lookup_insert_is_Some. destruct (decide (g +:+ "[" +:+ c +:+ "]" = name));
      [by left|by right].
Qed.

Lemma group_step_keeps nh psm g pcm pcm' name :
  group_step nh psm (Some pcm) g = Some pcm' ->
  is_Some (pcm !! name) -> is_Some (pcm' !! name).
Proof.
  unfold group_step. intros Hs Hn.
  destruct (hasParam nh g); cbn [negb] in Hs; [|by injection Hs as <-].
  destruct (getParam nh g) as [cfg|]; [|discriminate].
  destruct cfg as [| | | | | | | |members]; try discriminate.
  set (cfg := XmlRpc.Struct members) in *.
  destruct (if XmlRpc.hasMember cfg "planner_configs" then _ else _) as [pcm1|] eqn:H1;
    [|discriminate].
  assert (Hn1 : is_Some (pcm1 !! name)).
  { destruct (XmlRpc.hasMember cfg "planner_configs"); [|by injection H1 as <-].
    destruct (XmlRpc.member cfg "planner_configs") as [| | | | | | |a|]; try discriminate.
    by apply (fold_planner_config_step_keeps psm g a pcm). }
  destruct (fold_left (known_param_step cfg) known_group_param_names (true, ∅))
    as [found_all known_settings].
  destruct found_all; injection Hs as <-; [|exact Hn1].
  rewrite lookup_insert_is_Some. destruct (decide (g = name)); [by left|by right].
Qed.

Lemma fold_group_step_keeps nh psm l : forall pcm pcm' name,
  fold_left (group_step nh psm) l (Some pcm) = Some pcm' ->
  is_Some (pcm !! name) -> is_Some (pcm' !! name).
Proof.
  induction l as [|g l IH]; intros pcm pcm' name Hf Hn; cbn [fold_left] in Hf.
  - by injection Hf as <-.
  - destruct (group_step nh psm (Some pcm) g) as [pcm1|] eqn:Hs;
      [|rewrite fold_group_step_None in Hf; discriminate].
    apply (IH pcm1 pcm' name Hf). by apply (group_step_keeps nh psm g pcm).
Qed.

Lemma group_step_complete nh psm g pcm pcm' cfg :
  group_step nh psm (Some pcm) g = Some pcm' ->
  hasParam nh g = true -> getParam nh g = Some cfg ->
  (forall p, In p known_group_param_names -> XmlRpc.hasMember cfg p = true) ->
  is_Some (pcm' !! g).
Proof.
  unfold group_step. intros Hs Hp Hc Hall. rewrite Hp, Hc in Hs. cbn [negb] in Hs.
  destruct cfg as [| | | | | | | |members]; try discriminate.
  set (cfg := XmlRpc.Struct members) in *.
  destruct (if XmlRpc.hasMember cfg "planner_configs" then _ else _) as [pcm1|];
    [|discriminate].
  pose proof (fold_known_param_step_found cfg known_group_param_names ∅ Hall) as Hfound.
  destruct (fold_left (known_param_step cfg) known_group_param_names (true, ∅))
    as [found_all known_settings].
  cbn [fst] in Hfound. subst found_all. injection Hs as <-.
  rewrite lookup_insert_is_Some. by left.
Qed.

Lemma fold_group_step_complete nh psm l : forall pcm pcm' g cfg,
  fold_left (group_step nh psm) l (Some pcm) = Some pcm' ->
  In g l -> hasParam nh g = true -> getParam nh g = Some cfg ->
  (forall p, In p known_group_param_names -> XmlRpc.hasMember cfg p = true) ->
  is_Some (pcm' !! g).
Proof.
  induction l as [|g' l IH]; intros pcm pcm' g cfg Hf Hin Hp Hc Hall; [destruct Hin|].
  cbn [fold_left] in Hf.
  destruct (group_step nh psm (Some pcm) g') as [pcm1|] eqn:Hs;
    [|rewrite fold_group_step_None in Hf; discriminate].
  destruct Hin as [->|Hin].
  - apply (fold_group_step_keeps nh psm l pcm1 pcm' g Hf).
    by apply (group_step_complete nh psm g pcm pcm1 cfg).
  - by apply (IH pcm1 pcm' g cfg).
Qed.

(** X15: when [loadPlannerConfigurationMapping] succeeds, every joint
    group of the model whose parameter has all the known group
    parameters has a planner configuration under its name. *)
Theorem loadPlannerConfigurationMapping_complete (mgr : t) (model : RobotModel)
    (g : string) (cfg : XmlRpc.Value) :
  fst (loadPlannerConfigurationMapping mgr model) = true ->
  In g (getJointModelGroupNames model) ->
  hasParam (node_handle (m_ns mgr)) g = true ->
  getParam (node_handle (m_ns mgr)) g = Some cfg ->
  (forall p, In p known_group_param_names -> XmlRpc.hasMember cfg p = true) ->
  is_Some (config_settings_ (snd (loadPlannerConfigurationMapping mgr model)) !! g).
Proof.
  unfold loadPlannerConfigurationMapping.
  destruct (loadPlannerSettings mgr ∅) as [loaded psm].
  destruct loaded; cbn [negb]; [|discriminate].
  destruct (fold_left _ (getJointModelGroupNames model) (Some ∅)) as [pcm|] eqn:Hf;
    [|discriminate].
  intros _ Hin Hp Hc Hall. cbn [snd setPlannerConfigurations config_settings_].
  by apply (fold_group_step_complete _ _ _ ∅ pcm g cfg Hf).
Qed.

(** X16: [initialize] stores the model and the namespace whether it
    succeeds or not and leaves the cache of models alone; when it
    fails the planner configurations are as before; when it succeeds,
    every request [canServiceRequest] then accepts names a
    configuration of a joint group of the model that has a parameter
    in the namespace. *)
Theorem initialize_spec (mgr : t) (model : RobotModel) (ns : string) :
  let result := initialize mgr model ns in
  m_robot_model (snd result) = Some model /\
  m_ns (snd result) = ns /\
  m_sbpl_models (snd result) = m_sbpl_models mgr /\
  (fst result = false -> config_settings_ (snd result) = config_settings_ mgr) /\
  (fst result = true ->
   forall req, canServiceRequest (snd result) req = true ->
     exists pcs,
       config_settings_ (snd result) !! group_name req = Some pcs /\
       pcs_name pcs = group_name req /\
       In (pcs_group pcs) (getJointModelGroupNames model) /\
       hasParam (node_handle ns) (pcs_group pcs) = true).
Proof.
  intros result. unfold result, initialize.
  set (mgr' := Build (Some model) ns (config_settings_ mgr) (m_sbpl_models mgr)).
  destruct (loadPlannerConfigurationMapping_cases mgr' model) as [->|(pcm & -> & Hinv)];
    cbn [negb fst snd setPlannerConfigurations mgr'
         m_robot_model m_ns m_sbpl_models config_settings_].
  - split; [reflexivity|]. split; [reflexivity|]. split; [reflexivity|].
    split; [reflexivity|discriminate].
  - split; [reflexivity|]. split; [reflexivity|]. split; [reflexivity|].
    split; [discriminate|]. intros _ req [pcs Hpcs]%canServiceRequest_configured.
    cbn [config_settings_] in Hpcs. exists pcs. split; [exact Hpcs|].
    destruct (Hinv _ _ Hpcs) as (Hname & Hgroup & Hparam & _). auto.
Qed.
End MappingFacts2.

(** ** The parameters of a planning context *)

Section OrderFacts.
Context {V : Type}.

Lemma insert_by_key_perm (e : string * V) l : insert_by_key e l ≡ₚ e :: l.
Proof.
  induction l as [|e' l IH]; simpl; [reflexivity|].
  destruct (String.leb (fst e) (fst e')); [reflexivity|].
  rewrite IH. apply Permutation_swap.
Qed.

Lemma in_order_perm (m : gmap string V) : in_order m ≡ₚ map_to_list m.
Proof.
  unfold in_order. induction (map_to_list m) as [|e l IH]; simpl; [reflexivity|].
  by rewrite insert_by_key_perm, IH.
Qed.

Lemma elem_of_in_order (m : gmap string V) k v :
  (k, v) ∈ in_order m <-> m !! k = Some v.
Proof. rewrite in_order_perm. apply elem_of_map_to_list. Qed.

Lemma NoDup_in_order_keys (m : gmap string V) : NoDup (in_order m).*1.
Proof. rewrite in_order_perm. apply NoDup_fst_map_to_list. Qed.

Lemma insert_by_key_sorted (e : string * V) l :
  StronglySorted key_le l -> StronglySorted key_le (insert_by_key e l).
Proof.
  induction 1 as [|e' l Hs IH Hall]; simpl; [repeat constructor|].
  destruct (String.leb (fst e) (fst e')) eqn:Hle.
  - constructor; [by constructor|]. constructor; [exact (Is_true_true_2 _ Hle)|].
    eapply Forall_impl; [exact Hall|]. intros x Hx. unfold key_le in *.
    etrans; [exact (Is_true_true_2 _ Hle)|exact Hx].
  - constructor; [exact IH|]. rewrite insert_by_key_perm. constructor; [|exact Hall].
    unfold key_le. destruct (total String.le (fst e') (fst e)) as [Ht|Ht]; [exact Ht|].
    apply Is_true_true_1 in Ht. congruence.
Qed.

Lemma in_order_sorted (m : gmap string V) : StronglySorted key_le (in_order m).
Proof.
  unfold in_order. induction (map_to_list m) as [|e l IH]; simpl; [constructor|].
  by apply insert_by_key_sorted.
Qed.
End OrderFacts.

Section MergeFacts.
Context `{DoubleFormat} `{Collaborators}.
Import SBPLPlannerManager.

Lemma merge_step_lookup req acc e k :
  merge_step req acc e !! k
  = match acc !! k with Some v => Some v | None => config_offers req k e end.
Proof.
  unfold merge_step, config_offers, config_matches.
  destruct (string_contains (fst e) (group_name req)); cbn [andb];
    [|by destruct (acc !! k)].
  destruct (pcs_config (snd e) !! "type") as [type|].
  - destruct (String.eqb type (planner_id req)); [|by destruct (acc !! k)].
    rewrite lookup_union. by destruct (acc !! k), (pcs_config (snd e) !! k).
  - rewrite lookup_union. by destruct (acc !! k), (pcs_config (snd e) !! k).
Qed.

Lemma fold_merge_step_lookup req k l : forall acc,
  fold_left (merge_step req) l acc !! k
  = match acc !! k with Some v => Some v | None => first_offer req k l end.
Proof.
  induction l as [|e l IH]; intros acc; simpl; [by destruct (acc !! k)|].
  rewrite IH, merge_step_lookup.
  destruct (acc !! k); [reflexivity|]. by destruct (config_offers req k e).
Qed.


Lemma first_offer_app req k l1 e l2 v :
  Forall (fun e' => config_offers req k e' = None) l1 ->
  config_offers req k e = Some v ->
  first_offer req k (l1 ++ e :: l2) = Some v.
Proof.
  induction 1 as [|e' l1 He' Hall IH]; intros He; simpl.
  - by rewrite He.
  - rewrite He'. by apply IH.
Qed.


Lemma config_matches_spec req name pcs :
  config_matches req (name, pcs) = true <->
  string_contains name (group_name req) = true /\
  (pcs_config pcs !! "type" = None \/
   pcs_config pcs !! "type" = Some (planner_id req)).
Proof.
  unfold config_matches. cbn [fst snd]. rewrite andb_true_iff.
  destruct (pcs_config pcs !! "type") as [type|].
  - rewrite String.eqb_eq. intuition congruence.
  - intuition.
Qed.

Lemma all_params_lookup (mgr : t) req k :
  getPlanningContext_all_params mgr req !! k
  = first_offer req k (in_order (config_settings_ mgr)).
Proof.
  unfold getPlanningContext_all_params. by rewrite fold_merge_step_lookup, lookup_empty.
Qed.


(** X18: where several such configurations hold a parameter, the one
    whose name comes first gives the value: later configurations never
    override it. *)
Theorem getPlanningContext_all_params_first (mgr : t) (req : MotionPlanRequest)
    (k name v : string) (pcs : PlannerConfigurationSettings) :
  config_settings_ mgr !! name = Some pcs ->
  string_contains name (group_name req) = true ->
  (pcs_config pcs !! "type" = None \/
   pcs_config pcs !! "type" = Some (planner_id req)) ->
  pcs_config pcs !! k = Some v ->
  (forall name' pcs',
     config_settings_ mgr !! name' = Some pcs' ->
     string_contains name' (group_name req) = true ->
     (pcs_config pcs' !! "type" = None \/
      pcs_config pcs' !! "type" = Some (planner_id req)) ->
     is_Some (pcs_config pcs' !! k) ->
     String.leb name name' = true) ->
  getPlanningContext_all_params mgr req !! k = Some v.
Proof.
  intros Hin Hc Ht Hk Hmin. rewrite all_params_lookup.
  pose proof (in_order_sorted (config_settings_ mgr)) as Hsorted.
  pose proof (NoDup_in_order_keys (config_settings_ mgr)) as Hnd.
  apply elem_of_in_order, list_elem_of_split in Hin as (l1 & l2 & Hl).
  rewrite Hl in *. apply first_offer_app.
  - apply Forall_forall. intros [name' pcs'] Hin'.
    destruct (config_offers req k (name', pcs')) as [v'|] eqn:Hoff; [exfalso|reflexivity].
    unfold config_offers in Hoff.
    destruct (config_matches req (name', pcs')) eqn:Hm; [|discriminate].
    apply config_matches_spec in Hm as [Hc' Ht'].
    assert (Hcfg : config_settings_ mgr !! name' = Some pcs').
    { apply elem_of_in_order. rewrite Hl. apply elem_of_app. by left. }
    assert (Hle : String.le name name')
      by (apply Is_true_true_2, (Hmin name' pcs'); eauto).
    assert (Hge : String.le name' name).
    { apply (StronglySorted_app_1_elem_of key_le l1 ((name, pcs) :: l2)
               (name', pcs') (name, pcs) Hsorted Hin'). apply list_elem_of_here. }
    assert (E : name' = name) by (by apply (anti_symm String.le)).
    subst name'. rewrite fmap_app in Hnd. apply NoDup_app in Hnd as (_ & Hdisj & _).
    apply (Hdisj name).
    + apply list_elem_of_fmap. by exists (name, pcs').
    + simpl. apply list_elem_of_here.
  - unfold config_offers.
    by rewrite (proj2 (config_matches_spec req name pcs) (conj Hc Ht)).
Qed.
End MergeFacts.

(** ** Runs of the visualisations and of the manager on the examples *)

Lemma getWallsVisualization_pnts_spec_witness :
  @Visualization.getWallsVisualization_pnts example_library example_gridToWorld
     example_heuristic
  = [example_gridToWorld 1 0 0].
Proof.
  destruct (@getWallsVisualization_pnts_spec example_library example_gridToWorld
              example_heuristic 3 1 1 eq_refl) as [E _].
  rewrite E. reflexivity.
Defined.

Lemma syncGridAndBfs_wall_count_witness :
  snd (@BfsHeuristic.sync_loops example_library example_heuristic)
  = Z.of_nat (length (@Visualization.getWallsVisualization_pnts example_library
                        example_gridToWorld
                        (@BfsHeuristic.syncGridAndBfs example_library example_heuristic))) /\
  0 <= snd (@BfsHeuristic.sync_loops example_library example_heuristic) <= 3 * 1 * 1.
Proof.
  destruct (@syncGridAndBfs_wall_count example_library example_gridToWorld
              example_heuristic 3 1 1 eq_refl) as [E Hrange].
  split; [exact E|]. apply Hrange; lia.
Defined.

Lemma getValuesVisualization_spec_witness :
  map marker_text (@Visualization.getValuesVisualization example_library
                     example_gridToWorld example_heuristic_goal) = ["0"%string] /\
  map marker_id (@Visualization.getValuesVisualization example_library
                   example_gridToWorld example_heuristic_goal) = [0].
Proof.
  destruct (@getValuesVisualization_spec example_library example_gridToWorld
              example_heuristic_goal 3 1 1 eq_refl) as [E _].
  rewrite E. split; reflexivity.
Defined.

Lemma setGoal_after_sync_witness :
  fst (@BfsHeuristic.setGoal example_library
         (@BfsHeuristic.syncGridAndBfs example_library example_heuristic) 2 0 0) = true.
Proof.
  apply (@setGoal_after_sync example_library example_heuristic 3 1 1 2 0 0 eq_refl); lia.
Defined.

Lemma getBfsCostToGoal_before_goal_witness :
  @BfsHeuristic.getBfsCostToGoal example_library
     (@BfsHeuristic.syncGridAndBfs example_library example_heuristic)
     (BfsHeuristic.m_bfs (@BfsHeuristic.syncGridAndBfs example_library example_heuristic))
     2 0 0
  = int_mul (cost_per_cell_ (BfsHeuristic.m_params example_heuristic)) (-1).
Proof.
  rewrite (@getBfsCostToGoal_before_goal example_library example_heuristic 3 1 1 2 0 0 eq_refl);
    [reflexivity|lia..].
Defined.

Lemma planner_settings_spec_witness :
  fold_left (@SBPLPlannerManager.settings_step example_format)
    [("limits"%string, XmlRpc.Array [XmlRpc.Array []]);
     ("type"%string, XmlRpc.String "MHA*")] ∅ !! "limits"%string = Some ""%string /\
  fold_left (@SBPLPlannerManager.settings_step example_format)
    [("limits"%string, XmlRpc.Array [XmlRpc.Array []]);
     ("type"%string, XmlRpc.String "MHA*")] ∅ !! "type"%string = Some "MHA*"%string.
Proof.
  assert (Hnd : NoDup ([("limits"%string, XmlRpc.Array [XmlRpc.Array []]);
                        ("type"%string, XmlRpc.String "MHA*")].*1)).
  { cbn. apply NoDup_cons. split; [|apply NoDup_singleton].
    intros Hin%list_elem_of_singleton. discriminate. }
  destruct (@planner_settings_spec example_format _ Hnd) as [_ Hlookup].
  split.
  - rewrite (Hlookup "limits"%string (XmlRpc.Array [XmlRpc.Array []])); [reflexivity|].
    left. reflexivity.
  - rewrite (Hlookup "type"%string (XmlRpc.String "MHA*")); [reflexivity|].
    right. left. reflexivity.
Defined.

Lemma loadPlannerConfigurationMapping_complete_witness :
  is_Some
    (SBPLPlannerManager.config_settings_
       (snd (@SBPLPlannerManager.loadPlannerConfigurationMapping
               example_format example_collaborators example_manager example_robot_model))
     !! "arm"%string).
Proof.
  apply (@loadPlannerConfigurationMapping_complete example_format example_collaborators
           example_manager example_robot_model "arm"%string example_arm_cfg).
  - vm_compute. reflexivity.
  - left. reflexivity.
  - reflexivity.
  - reflexivity.
  - intros p Hp. cbn in Hp.
    repeat (destruct Hp as [<-|Hp]; [vm_compute; reflexivity|]). destruct Hp.
Defined.

Lemma getPlanningContext_all_params_first_witness :
  @SBPLPlannerManager.getPlanningContext_all_params example_collaborators
     example_manager (example_request "ARA*") !! "type"%string = Some "ARA*"%string.
Proof.
  assert (E : exists pcs,
             SBPLPlannerManager.config_settings_ example_manager !! "arm[ARA]"%string
             = Some pcs /\
             pcs_config pcs !! "type"%string = Some "ARA*"%string).
  { eexists. split; vm_compute; reflexivity. }
  destruct E as (pcs & Hpcs & Htype).
  apply (@getPlanningContext_all_params_first example_collaborators example_manager
           (example_request "ARA*") "type"%string "arm[ARA]"%string "ARA*"%string pcs Hpcs).
  - reflexivity.
  - right. exact Htype.
  - exact Htype.
  - intros name' pcs' Hpcs' _ Hmatch Hhas.
    apply elem_of_map_to_list in Hpcs'.
    assert (Hall : Forall (fun e : string * PlannerConfigurationSettings =>
                     is_Some (pcs_config e.2 !! "type"%string) ->
                     pcs_config e.2 !! "type"%string = None \/
                     pcs_config e.2 !! "type"%string = Some "ARA*"%string ->
                     String.leb "arm[ARA]" e.1 = true)
                   (map_to_list (SBPLPlannerManager.config_settings_ example_manager))).
    { vm_compute map_to_list.
      repeat (apply Forall_cons; split;
              [cbn [fst snd];
               try (intros _ _; vm_compute; reflexivity);
               try (intros [v Hv]; vm_compute in Hv; discriminate);
               try (intros _ [Hv|Hv]; vm_compute in Hv; discriminate)|]).
      apply Forall_nil_2. }
    rewrite Forall_forall in Hall. exact (Hall _ Hpcs' Hhas Hmatch).
Defined.
